(** * The payment ledger of the Kid Tok backend (server.js)

    A shallow embedding of the in-memory transaction / user ledger kept by
    the Express handlers

      - POST /api/create-payment
      - POST /api/confirm-payment
      - GET  /api/user/:userId
      - GET  /api/admin/transactions

    and the properties of that ledger.

    Modelling conventions.
    - JavaScript strings are [string]; a character is a code unit below 256.
    - A field of [req.body] is [option string]: [None] is an absent
      ([undefined]) field, [Some s] a JSON string.
    - A timestamp is the number of milliseconds since the epoch ([Z]).  The
      code stores [new Date().toISOString()] and reads it back with
      [new Date(s)]; that round trip is exact at millisecond precision, so
      the stored value is kept as the number itself.
    - JavaScript numbers that hold amounts and counters are [Z].
    - The [transactions] Map is an insertion-ordered association list (its
      iteration order is observable through [Array.from(transactions.values())]
      followed by a stable sort); the [users] Map, which is only read and
      written by key, is a [gmap].
    - The payment gateway (Stripe) and the clock are inputs of each request:
      a handler receives the gateway's answer as a function of the request it
      sends, and the readings of [new Date()] that end up in stored data. *)

From Stdlib Require Import ZArith Ascii String List Sorted Permutation Lia Bool.
From stdpp Require Import base option list gmap strings.

Local Open Scope string_scope.
Local Open Scope Z_scope.

(** ** Regular expressions (the fragment [emailRegex] is written in) *)

Module Regex.

Inductive t : Type :=
| Void                        (* matches nothing *)
| Eps                         (* the empty string *)
| Class (p : ascii -> bool)   (* one character of a class *)
| Seq (r1 r2 : t)
| Alt (r1 r2 : t)
| Star (r : t).

(** [r+] *)
Definition Plus (r : t) : t := Seq r (Star r).

Fixpoint nullable (r : t) : bool :=
  match r with
  | Void => false
  | Eps => true
  | Class _ => false
  | Seq r1 r2 => nullable r1 && nullable r2
  | Alt r1 r2 => nullable r1 || nullable r2
  | Star _ => true
  end.

Fixpoint der (c : ascii) (r : t) : t :=
  match r with
  | Void => Void
  | Eps => Void
  | Class p => if p c then Eps else Void
  | Seq r1 r2 =>
      if nullable r1 then Alt (Seq (der c r1) r2) (der c r2)
      else Seq (der c r1) r2
  | Alt r1 r2 => Alt (der c r1) (der c r2)
  | Star r1 => Seq (der c r1) (Star r1)
  end.

(** Match of the whole input ([^r$]). *)
Fixpoint full_match (r : t) (s : list ascii) : bool :=
  match s with
  | [] => nullable r
  | c :: s' => full_match (der c r) s'
  end.

(** The language of a regular expression. *)
Inductive lang : t -> list ascii -> Prop :=
| lang_eps : lang Eps []
| lang_class p c : p c = true -> lang (Class p) [c]
| lang_seq r1 r2 s1 s2 : lang r1 s1 -> lang r2 s2 -> lang (Seq r1 r2) (s1 ++ s2)
| lang_alt_l r1 r2 s : lang r1 s -> lang (Alt r1 r2) s
| lang_alt_r r1 r2 s : lang r2 s -> lang (Alt r1 r2) s
| lang_star_nil r : lang (Star r) []
| lang_star_cons r c s1 s2 :
    lang r (c :: s1) -> lang (Star r) s2 -> lang (Star r) ((c :: s1) ++ s2).

End Regex.

(** ** Character classes of [emailRegex] *)

(** [\s], on code units below 256: TAB, LF, VT, FF, CR, SPACE, NBSP. *)
Definition is_space (c : ascii) : bool :=
  let n := N_of_ascii c in
  (((9 <=? n) && (n <=? 13)) || (n =? 32) || (n =? 160))%N.

Definition is_char (a c : ascii) : bool := Ascii.eqb c a.

(** [[^\s@]] *)
Definition not_space_at (c : ascii) : bool :=
  negb (is_space c) && negb (is_char "@" c).

(** [const emailRegex = /^[^\s@]+@[^\s@]+\.[^\s@]+$/;] *)
Definition emailRegex : Regex.t :=
  Regex.Seq (Regex.Plus (Regex.Class not_space_at))
    (Regex.Seq (Regex.Class (is_char "@"))
       (Regex.Seq (Regex.Plus (Regex.Class not_space_at))
          (Regex.Seq (Regex.Class (is_char "."))
             (Regex.Plus (Regex.Class not_space_at))))).

(** [emailRegex.test(s)]; the pattern is anchored at both ends. *)
Definition emailRegex_test (s : string) : bool :=
  Regex.full_match emailRegex (list_ascii_of_string s).

(** The shape [local@domain.tld]: three non-empty runs without white space
    or [@], separated by one [@] and one dot. *)
Definition email_shape (s : string) : Prop :=
  exists a b c : list ascii,
    list_ascii_of_string s = (a ++ "@"%char :: b ++ "."%char :: c)%list /\
    a <> [] /\ b <> [] /\ c <> [] /\
    Forall (fun x => not_space_at x = true) a /\
    Forall (fun x => not_space_at x = true) b /\
    Forall (fun x => not_space_at x = true) c.

(** ** JavaScript [Map] with string keys, in insertion order *)

Module JsMap.
Section Defs.
Context {V : Type}.

Definition t := list (string * V).

Definition empty : t := [].

(** [m.get(k)]; [None] is [undefined]. *)
Fixpoint get (k : string) (m : t) : option V :=
  match m with
  | [] => None
  | (k', v) :: m' => if String.eqb k' k then Some v else get k m'
  end.

(** [m.has(k)] *)
Definition has (k : string) (m : t) : bool :=
  match get k m with Some _ => true | None => false end.

(** [m.set(k, v)]: an existing key keeps its place, a new key goes last. *)
Fixpoint set (k : string) (v : V) (m : t) : t :=
  match m with
  | [] => [(k, v)]
  | (k', v') :: m' =>
      if String.eqb k' k then (k, v) :: m' else (k', v') :: set k v m'
  end.

(** [Array.from(m.values())] *)
Definition values (m : t) : list V := map snd m.

Definition keys (m : t) : list string := map fst m.

(** [m.size] *)
Definition size (m : t) : nat := length m.

(** Keys are unique in every map built from [empty] by [set]. *)
Definition wf (m : t) : Prop := NoDup (keys m).
End Defs.
Arguments t : clear implicits.
End JsMap.

(** ** [Array.prototype.sort] with a comparator

    The sort is stable, and for a comparator that orders by a key the result
    of a stable sort does not depend on the algorithm; insertion sort stands
    for it.  [cmp a b < 0] puts [a] first, [cmp a b > 0] puts [b] first and
    [cmp a b = 0] keeps the two in their original order. *)

Section ArraySort.
Context {A : Type}.
Variable cmp : A -> A -> Z.

(** [x] stood before every element of [l] in the array. *)
Fixpoint sort_insert (x : A) (l : list A) : list A :=
  match l with
  | [] => [x]
  | y :: l' => if cmp x y <=? 0 then x :: y :: l' else y :: sort_insert x l'
  end.

Fixpoint array_sort (l : list A) : list A :=
  match l with
  | [] => []
  | x :: l' => sort_insert x (array_sort l')
  end.
End ArraySort.

(** ** Values of [req.body] *)

(** A field is truthy when it is present and not the empty string; the
    result is the string itself. *)
Definition truthy (v : option string) : option string :=
  match v with
  | Some s => if String.eqb s "" then None else Some s
  | None => None
  end.

(** [v || d] *)
Definition or_else (v : option string) (d : string) : string :=
  match truthy v with Some s => s | None => d end.

(** ** Records of the ledger *)

Definition Timestamp := Z.

Module Tx.
(** [transactionData], with the [completedAt] that confirmation adds. *)
Record t : Type := mk {
  paymentIntentId : string;
  userId : string;
  userName : string;
  userEmail : string;
  amount : Z;
  currency : string;
  status : string;
  createdAt : Timestamp;
  deviceInfo : option string;
  appVersion : option string;
  purchaseType : string;
  completedAt : option Timestamp
}.

(** [transaction.status = 'completed'; transaction.completedAt = now] *)
Definition complete (now : Timestamp) (x : t) : t :=
  {| paymentIntentId := paymentIntentId x; userId := userId x;
     userName := userName x; userEmail := userEmail x;
     amount := amount x; currency := currency x;
     status := "completed"; createdAt := createdAt x;
     deviceInfo := deviceInfo x; appVersion := appVersion x;
     purchaseType := purchaseType x; completedAt := Some now |}.
End Tx.

Module User.
(** A value of the [users] Map; [lastSuccessfulPurchase] and [isPremium]
    do not exist on a record until the first confirmation. *)
Record t : Type := mk {
  userId : string;
  userName : string;
  userEmail : string;
  firstSeen : Timestamp;
  lastPurchaseAttempt : Timestamp;
  totalAttempts : Z;
  successfulPurchases : Z;
  totalSpent : Z;
  lastSuccessfulPurchase : option Timestamp;
  isPremium : option bool
}.

(** [existingUser.lastPurchaseAttempt = now;
     existingUser.totalAttempts = (existingUser.totalAttempts || 0) + 1] *)
Definition attempt (now : Timestamp) (u : t) : t :=
  {| userId := userId u; userName := userName u; userEmail := userEmail u;
     firstSeen := firstSeen u;
     lastPurchaseAttempt := now;
     totalAttempts :=
       (if totalAttempts u =? 0 then 0 else totalAttempts u) + 1;
     successfulPurchases := successfulPurchases u;
     totalSpent := totalSpent u;
     lastSuccessfulPurchase := lastSuccessfulPurchase u;
     isPremium := isPremium u |}.

(** [user.successfulPurchases += 1; user.totalSpent += amount;
     user.lastSuccessfulPurchase = now; user.isPremium = true] *)
Definition purchase (now : Timestamp) (paid : Z) (u : t) : t :=
  {| userId := userId u; userName := userName u; userEmail := userEmail u;
     firstSeen := firstSeen u;
     lastPurchaseAttempt := lastPurchaseAttempt u;
     totalAttempts := totalAttempts u;
     successfulPurchases := successfulPurchases u + 1;
     totalSpent := totalSpent u + paid;
     lastSuccessfulPurchase := Some now;
     isPremium := Some true |}.
End User.

(** [const transactions = new Map(); const users = new Map();] *)
Record Ledger : Type := mkLedger {
  transactions : JsMap.t Tx.t;
  users : gmap string User.t
}.

Definition empty_ledger : Ledger :=
  {| transactions := JsMap.empty; users := ∅ |}.

(** ** The payment gateway *)

Module Stripe.
Module Params.
(** The argument of [stripe.paymentIntents.create]. *)
Record t : Type := mk {
  amount : Z;
  currency : string;
  automatic_payment_methods_enabled : bool;
  user_id : string;
  user_name : string;
  user_email : string;
  purchase_type : string;
  app_name : string;
  app_version : string;
  device_info : string;
  purchase_timestamp : Timestamp;
  amount_usd : string;
  receipt_email : string;
  description : string
}.
End Params.

Module Intent.
(** The fields of a payment intent that the handlers read. *)
Record t : Type := mk {
  id : string;
  client_secret : string;
  description : string;
  status : string;
  amount : Z
}.
End Intent.

Module Error.
Record t : Type := mk {
  message : string;
  type : option string
}.
End Error.

(** A call either throws or resolves to an intent. *)
Definition result : Type := Error.t + Intent.t.
End Stripe.

(** ** Requests and responses *)

Module CreateBody.
Record t : Type := mk {
  userEmail : option string;
  userName : option string;
  userId : option string;
  deviceInfo : option string;
  appVersion : option string;
  purchaseType : option string
}.
End CreateBody.

Module ConfirmBody.
Record t : Type := mk {
  paymentIntentId : option string;
  userId : option string
}.
End ConfirmBody.

(** Readings of [new Date()] taken while a payment is created. *)
Record CreateClock : Type := mkCreateClock {
  purchaseAt : Timestamp;      (* metadata.purchase_timestamp *)
  createdNow : Timestamp;      (* transactionData.createdAt *)
  firstSeenNow : Timestamp;    (* firstSeen of a new user *)
  attemptNow : Timestamp;      (* lastPurchaseAttempt *)
  respondedNow : Timestamp     (* transactionDetails.timestamp *)
}.

(** Readings of [new Date()] taken while a payment is confirmed. *)
Record ConfirmClock : Type := mkConfirmClock {
  completedNow : Timestamp;    (* transaction.completedAt *)
  purchasedNow : Timestamp     (* user.lastSuccessfulPurchase *)
}.

Record UserSummary : Type := mkUserSummary {
  us_totalTransactions : nat;
  us_successfulTransactions : nat;
  us_totalSpent : Z;
  us_isPremium : bool
}.

Record AdminSummary : Type := mkAdminSummary {
  totalTransactions : nat;
  completedTransactions : nat;
  pendingTransactions : nat;
  totalRevenue : Z;
  uniqueUsers : nat
}.

Inductive Body : Type :=
| CreatePaymentOk (clientSecret paymentIntentId : string) (amount : Z)
    (currency : string) (userId userName userEmail : string)
    (description receiptEmail : string) (timestamp : Timestamp)
| ConfirmPaymentOk (success : bool) (message paymentIntentId : string)
    (amount : Z) (status : string)
| UserOk (user : User.t) (userTransactions : list Tx.t) (summary : UserSummary)
| AdminOk (allTransactions : list Tx.t) (summary : AdminSummary)
| ErrorBody (error : string) (type : option string) (status : option string).

(** [res.status(code).json(body)]; [res.json(body)] answers 200. *)
Record Response : Type := mkResponse {
  code : Z;
  body : Body
}.

Definition json (b : Body) : Response := {| code := 200; body := b |}.

(** ** POST /api/create-payment *)

Definition missing_user_information : string :=
  "Missing required user information: userEmail, userName, and userId are required".

Definition create_payment
    (stripe_create : Stripe.Params.t -> Stripe.result)
    (now : CreateClock) (req : CreateBody.t) (l : Ledger)
  : Response * Ledger :=
  let deviceInfo := CreateBody.deviceInfo req in
  let appVersion := CreateBody.appVersion req in
  let purchaseType :=
    default "unlimited_video_selection" (CreateBody.purchaseType req) in
  match truthy (CreateBody.userEmail req),
        truthy (CreateBody.userName req),
        truthy (CreateBody.userId req) with
  | Some userEmail, Some userName, Some userId =>
      if negb (emailRegex_test userEmail) then
        ({| code := 400; body := ErrorBody "Invalid email format" None None |}, l)
      else
        let amount := 999 in
        let currency := "usd" in
        match stripe_create
                {| Stripe.Params.amount := amount;
                   Stripe.Params.currency := currency;
                   Stripe.Params.automatic_payment_methods_enabled := true;
                   Stripe.Params.user_id := userId;
                   Stripe.Params.user_name := userName;
                   Stripe.Params.user_email := userEmail;
                   Stripe.Params.purchase_type := purchaseType;
                   Stripe.Params.app_name := "Kid Tok Premium";
                   Stripe.Params.app_version := or_else appVersion "unknown";
                   Stripe.Params.device_info := or_else deviceInfo "unknown";
                   Stripe.Params.purchase_timestamp := purchaseAt now;
                   Stripe.Params.amount_usd := "9.99";
                   Stripe.Params.receipt_email := userEmail;
                   Stripe.Params.description :=
                     "Kid Tok Premium - Unlimited Video Access for " ++ userName
                |} with
        | inl error =>
            ({| code := 400;
                body := ErrorBody (Stripe.Error.message error)
                          (Some (or_else (Stripe.Error.type error)
                                   "payment_creation_error"))
                          None |}, l)
        | inr paymentIntent =>
            let transactionData :=
              {| Tx.paymentIntentId := Stripe.Intent.id paymentIntent;
                 Tx.userId := userId;
                 Tx.userName := userName;
                 Tx.userEmail := userEmail;
                 Tx.amount := amount;
                 Tx.currency := currency;
                 Tx.status := "pending";
                 Tx.createdAt := createdNow now;
                 Tx.deviceInfo := deviceInfo;
                 Tx.appVersion := appVersion;
                 Tx.purchaseType := purchaseType;
                 Tx.completedAt := None |} in
            let transactions' :=
              JsMap.set (Stripe.Intent.id paymentIntent) transactionData
                (transactions l) in
            let users' :=
              match users l !! userId with
              | Some existingUser =>
                  <[userId := User.attempt (attemptNow now) existingUser]> (users l)
              | None =>
                  <[userId :=
                      {| User.userId := userId;
                         User.userName := userName;
                         User.userEmail := userEmail;
                         User.firstSeen := firstSeenNow now;
                         User.lastPurchaseAttempt := attemptNow now;
                         User.totalAttempts := 1;
                         User.successfulPurchases := 0;
                         User.totalSpent := 0;
                         User.lastSuccessfulPurchase := None;
                         User.isPremium := None |}]> (users l)
              end in
            (json (CreatePaymentOk
                     (Stripe.Intent.client_secret paymentIntent)
                     (Stripe.Intent.id paymentIntent)
                     amount currency userId userName userEmail
                     (Stripe.Intent.description paymentIntent)
                     userEmail (respondedNow now)),
             {| transactions := transactions'; users := users' |})
        end
  | _, _, _ =>
      ({| code := 400; body := ErrorBody missing_user_information None None |}, l)
  end.

(** ** POST /api/confirm-payment *)

Definition confirm_payment
    (stripe_retrieve : string -> Stripe.result)
    (now : ConfirmClock) (req : ConfirmBody.t) (l : Ledger)
  : Response * Ledger :=
  match truthy (ConfirmBody.paymentIntentId req),
        truthy (ConfirmBody.userId req) with
  | Some paymentIntentId, Some userId =>
      match stripe_retrieve paymentIntentId with
      | inl error =>
          ({| code := 500;
              body := ErrorBody (Stripe.Error.message error)
                        (Some "payment_confirmation_error") None |}, l)
      | inr paymentIntent =>
          if String.eqb (Stripe.Intent.status paymentIntent) "succeeded" then
            let transactions' :=
              match JsMap.get paymentIntentId (transactions l) with
              | Some transaction =>
                  JsMap.set paymentIntentId
                    (Tx.complete (completedNow now) transaction)
                    (transactions l)
              | None => transactions l
              end in
            let users' :=
              match users l !! userId with
              | Some user =>
                  <[userId :=
                      User.purchase (purchasedNow now)
                        (Stripe.Intent.amount paymentIntent) user]> (users l)
              | None => users l
              end in
            (json (ConfirmPaymentOk true "Payment confirmed successfully"
                     paymentIntentId
                     (Stripe.Intent.amount paymentIntent)
                     (Stripe.Intent.status paymentIntent)),
             {| transactions := transactions'; users := users' |})
          else
            ({| code := 400;
                body := ErrorBody "Payment not completed" None
                          (Some (Stripe.Intent.status paymentIntent)) |}, l)
      end
  | _, _ =>
      ({| code := 400;
          body := ErrorBody "Missing paymentIntentId or userId" None None |}, l)
  end.

(** ** The queries *)

(** [(a, b) => new Date(b.createdAt) - new Date(a.createdAt)] *)
Definition newest_first (a b : Tx.t) : Z := Tx.createdAt b - Tx.createdAt a.

Definition is_completed (x : Tx.t) : bool := String.eqb (Tx.status x) "completed".
Definition is_pending (x : Tx.t) : bool := String.eqb (Tx.status x) "pending".

(** GET /api/user/:userId *)
Definition get_user (userId : string) (l : Ledger) : Response :=
  match users l !! userId with
  | None => {| code := 404; body := ErrorBody "User not found" None None |}
  | Some userData =>
      let userTransactions :=
        array_sort newest_first
          (List.filter (fun x => String.eqb (Tx.userId x) userId)
             (JsMap.values (transactions l))) in
      json (UserOk userData userTransactions
              {| us_totalTransactions := length userTransactions;
                 us_successfulTransactions :=
                   length (List.filter is_completed userTransactions);
                 us_totalSpent := User.totalSpent userData;
                 us_isPremium := default false (User.isPremium userData) |})
  end.

(** GET /api/admin/transactions *)
Definition admin_transactions (l : Ledger) : Response :=
  let allTransactions :=
    array_sort newest_first (JsMap.values (transactions l)) in
  let summary :=
    {| totalTransactions := length allTransactions;
       completedTransactions := length (List.filter is_completed allTransactions);
       pendingTransactions := length (List.filter is_pending allTransactions);
       totalRevenue :=
         fold_left (fun sum x => sum + Tx.amount x)
           (List.filter is_completed allTransactions) 0;
       uniqueUsers :=
         size (list_to_set (map Tx.userId allTransactions) : gset string) |} in
  json (AdminOk allTransactions summary).

(** ** Requests in sequence *)

Inductive Op : Type :=
| CreatePayment (stripe_create : Stripe.Params.t -> Stripe.result)
    (now : CreateClock) (req : CreateBody.t)
| ConfirmPayment (stripe_retrieve : string -> Stripe.result)
    (now : ConfirmClock) (req : ConfirmBody.t).

Definition handle (op : Op) (l : Ledger) : Response * Ledger :=
  match op with
  | CreatePayment g now req => create_payment g now req l
  | ConfirmPayment g now req => confirm_payment g now req l
  end.

Definition step (l : Ledger) (op : Op) : Ledger := snd (handle op l).

Definition run (l : Ledger) (ops : list Op) : Ledger := fold_left step ops l.

(** The request is a successful create-payment call for [u]. *)
Definition created_for (u : string) (op : Op) (l : Ledger) : bool :=
  match op with
  | CreatePayment _ _ req =>
      (code (fst (handle op l)) =? 200) &&
      bool_decide (truthy (CreateBody.userId req) = Some u)
  | ConfirmPayment _ _ _ => false
  end.

(** Number of successful create-payment calls for [u] while [ops] runs
    from [l]. *)
Fixpoint creates_for (u : string) (l : Ledger) (ops : list Op) : nat :=
  match ops with
  | [] => 0
  | op :: ops' =>
      ((if created_for u op l then 1 else 0) + creates_for u (step l op) ops')%nat
  end.

(** [totalAttempts] of [u], 0 when there is no record. *)
Definition attempts (l : Ledger) (u : string) : Z :=
  match users l !! u with
  | Some usr => User.totalAttempts usr
  | None => 0
  end.

(** The gateway assigns every intent an identifier of its own: a create
    call that succeeds gets an identifier no stored transaction has. *)
Definition issues_fresh_id (op : Op) (l : Ledger) : Prop :=
  match op with
  | CreatePayment _ _ _ =>
      match body (fst (handle op l)) with
      | CreatePaymentOk _ paymentIntentId _ _ _ _ _ _ _ _ =>
          JsMap.get paymentIntentId (transactions l) = None
      | _ => True
      end
  | ConfirmPayment _ _ _ => True
  end.

(** Ledgers that the handlers can produce from the empty one. *)
Inductive reachable : Ledger -> Prop :=
| reachable_empty : reachable empty_ledger
| reachable_step l op :
    reachable l -> issues_fresh_id op l -> reachable (step l op).

(** ** Reference computations over the store

    The figures of the reports, computed from the [transactions] Map itself,
    entry by entry, without going through the sorted array. *)

(** Number of stored transactions that satisfy [p]. *)
Fixpoint count_where (p : Tx.t -> bool) (m : JsMap.t Tx.t) : nat :=
  match m with
  | [] => 0
  | (_, x) :: m' => ((if p x then 1 else 0) + count_where p m')%nat
  end.

(** Sum of [amount] over the stored transactions whose status is completed. *)
Fixpoint revenue (m : JsMap.t Tx.t) : Z :=
  match m with
  | [] => 0
  | (_, x) :: m' =>
      (if String.eqb (Tx.status x) "completed" then Tx.amount x else 0) + revenue m'
  end.

Definition owned_by (u : string) (x : Tx.t) : bool := String.eqb (Tx.userId x) u.

(** [ids] lists, once each, the user ids that occur on stored transactions. *)
Definition distinct_users (l : Ledger) (ids : list string) : Prop :=
  NoDup ids /\
  forall u, In u ids <->
    exists x, In x (JsMap.values (transactions l)) /\ Tx.userId x = u.

(** Newest first: no transaction is followed by a newer one. *)
Definition newest_first_sorted (xs : list Tx.t) : Prop :=
  StronglySorted (fun a b => Tx.createdAt b <= Tx.createdAt a) xs.

(** Every stored status is one of the two the handlers write. *)
Definition status_ok (l : Ledger) : Prop :=
  forall k x, JsMap.get k (transactions l) = Some x ->
    Tx.status x = "pending" \/ Tx.status x = "completed".

(** ** A sample session

    The requests of the example in the description of the service: user
    [u1] buys once; the gateway names the intent [pi_1]. *)

Definition sample_create : CreateBody.t :=
  {| CreateBody.userEmail := Some "a@b.com";
     CreateBody.userName := Some "A";
     CreateBody.userId := Some "u1";
     CreateBody.deviceInfo := None;
     CreateBody.appVersion := None;
     CreateBody.purchaseType := None |}.

Definition sample_intent (id st : string) (paid : Z) : Stripe.Intent.t :=
  {| Stripe.Intent.id := id;
     Stripe.Intent.client_secret := id ++ "_secret";
     Stripe.Intent.description := "Kid Tok Premium - Unlimited Video Access for A";
     Stripe.Intent.status := st;
     Stripe.Intent.amount := paid |}.

(** A gateway that answers every call with the given intent. *)
Definition gateway {X : Type} (i : Stripe.Intent.t) : X -> Stripe.result :=
  fun _ => inr i.

Definition sample_confirm (pid uid : string) : ConfirmBody.t :=
  {| ConfirmBody.paymentIntentId := Some pid; ConfirmBody.userId := Some uid |}.

Definition create_at (t : Timestamp) : CreateClock :=
  {| purchaseAt := t; createdNow := t; firstSeenNow := t;
     attemptNow := t; respondedNow := t |}.

Definition confirm_at (t : Timestamp) : ConfirmClock :=
  {| completedNow := t; purchasedNow := t |}.

(** [u1] has created payment [pi_1] at time 1000. *)
Definition ledger_created : Ledger :=
  step empty_ledger
    (CreatePayment (gateway (sample_intent "pi_1" "requires_payment_method" 999))
       (create_at 1000) sample_create).

(** ... and confirmed it at time 2000. *)
Definition ledger_confirmed : Ledger :=
  step ledger_created
    (ConfirmPayment (gateway (sample_intent "pi_1" "succeeded" 999))
       (confirm_at 2000) (sample_confirm "pi_1" "u1")).

(** ... and confirmed it once more at time 3000. *)
Definition ledger_confirmed_twice : Ledger :=
  step ledger_confirmed
    (ConfirmPayment (gateway (sample_intent "pi_1" "succeeded" 999))
       (confirm_at 3000) (sample_confirm "pi_1" "u1")).

(** A second user, [u2], who has created payment [pi_2] at time 1500. *)
Definition sample_create_u2 : CreateBody.t :=
  {| CreateBody.userEmail := Some "c@d.org";
     CreateBody.userName := Some "B";
     CreateBody.userId := Some "u2";
     CreateBody.deviceInfo := Some "phone";
     CreateBody.appVersion := Some "1.2";
     CreateBody.purchaseType := None |}.

Definition ledger_two_users : Ledger :=
  step ledger_created
    (CreatePayment (gateway (sample_intent "pi_2" "requires_payment_method" 999))
       (create_at 1500) sample_create_u2).

Definition sample_u2 : User.t :=
  {| User.userId := "u2"; User.userName := "B"; User.userEmail := "c@d.org";
     User.firstSeen := 1500; User.lastPurchaseAttempt := 1500;
     User.totalAttempts := 1; User.successfulPurchases := 0;
     User.totalSpent := 0; User.lastSuccessfulPurchase := None;
     User.isPremium := None |}.

(** [u1] creates two payments in a row. *)
Definition two_creates : list Op :=
  [CreatePayment (gateway (sample_intent "pi_1" "requires_payment_method" 999))
     (create_at 1000) sample_create;
   CreatePayment (gateway (sample_intent "pi_2" "requires_payment_method" 999))
     (create_at 1500) sample_create].

(** Two users, two payments; [u1] has paid [pi_1], [pi_2] is pending. *)
Definition ledger_mixed : Ledger :=
  step ledger_two_users
    (ConfirmPayment (gateway (sample_intent "pi_1" "succeeded" 999))
       (confirm_at 2000) (sample_confirm "pi_1" "u1")).

(** ** The records a successful create-payment call stores *)

(** [transactionData] of a call that passed validation for user [u], with
    the intent identifier [pid] of the gateway. *)
Definition created_transaction (now : CreateClock) (req : CreateBody.t)
    (e n u pid : string) : Tx.t :=
  {| Tx.paymentIntentId := pid;
     Tx.userId := u; Tx.userName := n; Tx.userEmail := e;
     Tx.amount := 999; Tx.currency := "usd"; Tx.status := "pending";
     Tx.createdAt := createdNow now;
     Tx.deviceInfo := CreateBody.deviceInfo req;
     Tx.appVersion := CreateBody.appVersion req;
     Tx.purchaseType :=
       default "unlimited_video_selection" (CreateBody.purchaseType req);
     Tx.completedAt := None |}.

(** The record of a user seen for the first time. *)
Definition created_user (now : CreateClock) (e n u : string) : User.t :=
  {| User.userId := u; User.userName := n; User.userEmail := e;
     User.firstSeen := firstSeenNow now;
     User.lastPurchaseAttempt := attemptNow now;
     User.totalAttempts := 1; User.successfulPurchases := 0;
     User.totalSpent := 0; User.lastSuccessfulPurchase := None;
     User.isPremium := None |}.

(** The [if (users.has(userId)) ... else ...] of create-payment. *)
Definition upsert_user (now : CreateClock) (e n u : string)
    (us : gmap string User.t) : gmap string User.t :=
  match us !! u with
  | Some existingUser => <[u := User.attempt (attemptNow now) existingUser]> us
  | None => <[u := created_user now e n u]> us
  end.

(** The argument create-payment passes to [stripe.paymentIntents.create]. *)
Definition create_params (now : CreateClock) (req : CreateBody.t)
    (e n u : string) : Stripe.Params.t :=
  {| Stripe.Params.amount := 999;
     Stripe.Params.currency := "usd";
     Stripe.Params.automatic_payment_methods_enabled := true;
     Stripe.Params.user_id := u;
     Stripe.Params.user_name := n;
     Stripe.Params.user_email := e;
     Stripe.Params.purchase_type :=
       default "unlimited_video_selection" (CreateBody.purchaseType req);
     Stripe.Params.app_name := "Kid Tok Premium";
     Stripe.Params.app_version := or_else (CreateBody.appVersion req) "unknown";
     Stripe.Params.device_info := or_else (CreateBody.deviceInfo req) "unknown";
     Stripe.Params.purchase_timestamp := purchaseAt now;
     Stripe.Params.amount_usd := "9.99";
     Stripe.Params.receipt_email := e;
     Stripe.Params.description :=
       "Kid Tok Premium - Unlimited Video Access for " ++ n |}.

(** ** The updates of a successful confirm-payment call *)

(** The [if (transactions.has(paymentIntentId)) ...] of confirm-payment. *)
Definition complete_transaction (now : ConfirmClock) (pid : string)
    (m : JsMap.t Tx.t) : JsMap.t Tx.t :=
  match JsMap.get pid m with
  | Some transaction =>
      JsMap.set pid (Tx.complete (completedNow now) transaction) m
  | None => m
  end.

(** The [if (users.has(userId)) ...] of confirm-payment. *)
Definition credit_user (now : ConfirmClock) (uid : string) (paid : Z)
    (us : gmap string User.t) : gmap string User.t :=
  match us !! uid with
  | Some user => <[uid := User.purchase (purchasedNow now) paid user]> us
  | None => us
  end.

(** ** Confirmations in a sequence of requests *)

(** The amount that the request credits to the record of [u]: the request is
    a confirm-payment call for [u] that answers success while [u] has a
    record. *)
Definition credited (u : string) (op : Op) (l : Ledger) : option Z :=
  match op with
  | ConfirmPayment _ _ req =>
      match body (fst (handle op l)) with
      | ConfirmPaymentOk _ _ _ paid _ =>
          if bool_decide (truthy (ConfirmBody.userId req) = Some u) &&
             bool_decide (is_Some (users l !! u))
          then Some paid else None
      | _ => None
      end
  | CreatePayment _ _ _ => None
  end.

(** Number of confirmations credited to [u] while [ops] runs from [l]. *)
Fixpoint purchases_for (u : string) (l : Ledger) (ops : list Op) : Z :=
  match ops with
  | [] => 0
  | op :: ops' =>
      (match credited u op l with Some _ => 1 | None => 0 end)
      + purchases_for u (step l op) ops'
  end.

(** Sum of the amounts credited to [u] while [ops] runs from [l]. *)
Fixpoint spent_for (u : string) (l : Ledger) (ops : list Op) : Z :=
  match ops with
  | [] => 0
  | op :: ops' =>
      (match credited u op l with Some paid => paid | None => 0 end)
      + spent_for u (step l op) ops'
  end.

(** [Number.MAX_SAFE_INTEGER], 2^53 - 1: up to it, the sum of two
    non-negative integers that JavaScript computes is the integer sum. *)
Definition MAX_SAFE_INTEGER : Z := 9007199254740991.

(** Every amount credited to [u] while [ops] runs from [l] is non-negative. *)
Fixpoint credits_nonneg (u : string) (l : Ledger) (ops : list Op) : Prop :=
  match ops with
  | [] => True
  | op :: ops' =>
      match credited u op l with Some paid => 0 <= paid | None => True end /\
      credits_nonneg u (step l op) ops'
  end.

(** [u1] buys once and the confirmation arrives twice. *)
Definition buy_confirm_twice : list Op :=
  [CreatePayment (gateway (sample_intent "pi_1" "requires_payment_method" 999))
     (create_at 1000) sample_create;
   ConfirmPayment (gateway (sample_intent "pi_1" "succeeded" 999))
     (confirm_at 2000) (sample_confirm "pi_1" "u1");
   ConfirmPayment (gateway (sample_intent "pi_1" "succeeded" 999))
     (confirm_at 3000) (sample_confirm "pi_1" "u1")].

(** What the handlers keep true of a stored transaction: the one price, and
    a completion time exactly when the status is completed. *)
Definition tx_ok (x : Tx.t) : Prop :=
  Tx.amount x = 999 /\ Tx.currency x = "usd" /\
  ((Tx.status x = "pending" /\ Tx.completedAt x = None) \/
   (Tx.status x = "completed" /\ is_Some (Tx.completedAt x))).

(** What the handlers keep true of a user record: no purchase yet and no
    trace of one, or at least one purchase and the premium flag. *)
Definition user_ok (usr : User.t) : Prop :=
  1 <= User.totalAttempts usr /\
  ((User.isPremium usr = None /\ User.lastSuccessfulPurchase usr = None /\
    User.successfulPurchases usr = 0 /\ User.totalSpent usr = 0) \/
   (User.isPremium usr = Some true /\
    is_Some (User.lastSuccessfulPurchase usr) /\
    1 <= User.successfulPurchases usr)).

(** ** GET /api/test-stripe and GET / *)

(** [process.env], as far as these handlers read it. *)
Record Env : Type := mkEnv {
  STRIPE_SECRET_KEY : option string;
  PORT : option string
}.

(** [const port = process.env.PORT || 3001;]: the variable's string, or the
    number 3001. *)
Definition port (env : Env) : string + Z :=
  match truthy (PORT env) with
  | Some p => inl p
  | None => inr 3001
  end.

Module TestStripe.
Record t : Type := mk {
  message : string;
  hasStripeKey : bool;
  stripeKeyExists : string;
  serverTime : Timestamp;
  serverIP : string;
  port : string + Z;
  totalTransactions : nat;
  totalUsers : nat
}.
End TestStripe.

Definition test_stripe (env : Env) (now : Timestamp) (l : Ledger) : TestStripe.t :=
  {| TestStripe.message := "Stripe endpoint is working!";
     TestStripe.hasStripeKey :=
       match truthy (STRIPE_SECRET_KEY env) with Some _ => true | None => false end;
     TestStripe.stripeKeyExists :=
       match truthy (STRIPE_SECRET_KEY env) with Some _ => "Yes" | None => "No" end;
     TestStripe.serverTime := now;
     TestStripe.serverIP := "192.168.1.8";
     TestStripe.port := port env;
     TestStripe.totalTransactions := JsMap.size (transactions l);
     TestStripe.totalUsers := size (users l) |}.

(** [const totalRevenue] of the home page, which prints it (in dollars)
    with [transactions.size] and [users.size]. *)
Definition home_totalRevenue (l : Ledger) : Z :=
  fold_left (fun sum x => sum + Tx.amount x)
    (List.filter is_completed (JsMap.values (transactions l))) 0.

(** ** The file name of a video (GET /api/videos) *)

(** [s.split(c)], for a one-character separator. *)
Fixpoint split_on (c : ascii) (s : string) : list string :=
  match s with
  | EmptyString => [EmptyString]
  | String a s' =>
      if Ascii.eqb a c then EmptyString :: split_on c s'
      else match split_on c s' with
           | seg :: rest => String a seg :: rest
           | [] => [String a EmptyString]
           end
  end.

(** [a.pop()], on the non-empty arrays that [split] returns. *)
Definition pop (a : list string) : string := List.last a EmptyString.

(** [resource.filename || resource.public_id.split('/').pop() || 'Video'] *)
Definition video_filename (filename : option string) (public_id : string) : string :=
  or_else filename (or_else (Some (pop (split_on "/" public_id))) "Video").

(** * Properties *)

(** ** Regular expressions: the matcher decides the language *)

Section RegexFacts.
Import Regex.

Lemma lang_seq_inv r1 r2 s :
  lang (Seq r1 r2) s -> exists s1 s2, s = (s1 ++ s2)%list /\ lang r1 s1 /\ lang r2 s2.
Proof. inversion 1; subst; eauto. Qed.

Lemma nullable_lang r : nullable r = true <-> lang r [].
Proof.
  induction r; simpl.
  - split; [discriminate | inversion 1].
  - split; [constructor | reflexivity].
  - split; [discriminate | inversion 1].
  - rewrite andb_true_iff, IHr1, IHr2. split.
    + intros [H1 H2]. exact (lang_seq _ _ [] [] H1 H2).
    + intros H. apply lang_seq_inv in H as (s1 & s2 & E & H1 & H2).
      symmetry in E. apply app_eq_nil in E as [-> ->]. auto.
  - rewrite orb_true_iff, IHr1, IHr2. split.
    + intros [H|H]; [apply lang_alt_l | apply lang_alt_r]; exact H.
    + inversion 1; subst; auto.
  - split; [constructor | reflexivity].
Qed.

Lemma lang_star_cons_inv r c s :
  lang (Star r) (c :: s) ->
  exists s1 s2, s = (s1 ++ s2)%list /\ lang r (c :: s1) /\ lang (Star r) s2.
Proof.
  intros H. remember (c :: s) as w eqn:Ew. remember (Star r) as q eqn:Eq.
  destruct H as [| | | | | |r' c' s1 s2 H1 H2]; try discriminate.
  injection Eq as ->. simpl in Ew. injection Ew as -> <-. eauto.
Qed.

Lemma der_lang r : forall c s, lang (der c r) s <-> lang r (c :: s).
Proof.
  induction r as [| |p|r1 IH1 r2 IH2|r1 IH1 r2 IH2|r IH]; intros c s; simpl.
  - split; inversion 1.
  - split; inversion 1.
  - destruct (p c) eqn:Hp; split.
    + inversion 1; subst. constructor; exact Hp.
    + inversion 1; subst. constructor.
    + inversion 1.
    + inversion 1; subst. congruence.
  - assert (Hl : lang (Seq (der c r1) r2) s -> lang (Seq r1 r2) (c :: s)).
    { intros H. apply lang_seq_inv in H as (s1 & s2 & -> & H1 & H2).
      apply IH1 in H1. exact (lang_seq _ _ (c :: s1) s2 H1 H2). }
    assert (Hr : lang (Seq r1 r2) (c :: s) ->
                 lang (Seq (der c r1) r2) s \/
                 (lang r1 [] /\ lang r2 (c :: s))).
    { intros H. apply lang_seq_inv in H as (s1 & s2 & E & H1 & H2).
      destruct s1 as [|c' s1]; simpl in E.
      - subst s2. right. auto.
      - injection E as <- ->. left. apply lang_seq; [apply IH1|]; assumption. }
    destruct (nullable r1) eqn:Hn; split.
    + inversion 1; subst; [auto|].
      apply nullable_lang in Hn. apply IH2 in H3.
      exact (lang_seq _ _ [] (c :: s) Hn H3).
    + intros H. apply Hr in H as [H|[_ H]].
      * apply lang_alt_l; exact H.
      * apply lang_alt_r, IH2; exact H.
    + exact Hl.
    + intros H. apply Hr in H as [H|[H _]]; [exact H|].
      apply nullable_lang in H. congruence.
  - split.
    + inversion 1; subst; [apply lang_alt_l, IH1 | apply lang_alt_r, IH2]; assumption.
    + inversion 1; subst; [apply lang_alt_l, IH1 | apply lang_alt_r, IH2]; assumption.
  - split.
    + intros H. apply lang_seq_inv in H as (s1 & s2 & -> & H1 & H2).
      apply IH in H1. exact (lang_star_cons _ _ _ _ H1 H2).
    + intros H. apply lang_star_cons_inv in H as (s1 & s2 & -> & H1 & H2).
      apply lang_seq; [apply IH|]; assumption.
Qed.

Lemma full_match_lang s : forall r, full_match r s = true <-> lang r s.
Proof.
  induction s as [|c s IH]; intros r; simpl.
  - apply nullable_lang.
  - rewrite IH. apply der_lang.
Qed.

Lemma lang_star_class p s :
  lang (Star (Class p)) s <-> Forall (fun x => p x = true) s.
Proof.
  split.
  - induction s as [|c s IH]; intros H; [constructor|].
    apply lang_star_cons_inv in H as (s1 & s2 & -> & H1 & H2).
    inversion H1; subst. simpl in *. constructor; auto.
  - induction 1 as [|c s Hc _ IH]; [constructor|].
    exact (lang_star_cons _ _ [] _ (lang_class _ _ Hc) IH).
Qed.

Lemma lang_plus_class p s :
  lang (Plus (Class p)) s <-> s <> [] /\ Forall (fun x => p x = true) s.
Proof.
  unfold Plus. split.
  - intros H. apply lang_seq_inv in H as (s1 & s2 & -> & H1 & H2).
    inversion H1; subst. apply lang_star_class in H2. simpl.
    split; [discriminate | constructor; assumption].
  - intros [Hne H]. destruct s as [|c s]; [congruence|].
    inversion H; subst.
    apply (lang_seq _ _ [c] s); [constructor; assumption|].
    apply lang_star_class; assumption.
Qed.

Lemma lang_char a s : lang (Class (is_char a)) s <-> s = [a].
Proof.
  split.
  - inversion 1 as [|p c Hc| | | | |]; subst. unfold is_char in Hc.
    apply Ascii.eqb_eq in Hc. congruence.
  - intros ->. constructor. unfold is_char. apply Ascii.eqb_refl.
Qed.
End RegexFacts.

(** [emailRegex.test] accepts exactly the strings of the shape
    [local@domain.tld]. *)
Lemma emailRegex_test_shape s : emailRegex_test s = true <-> email_shape s.
Proof.
  unfold emailRegex_test, email_shape, emailRegex.
  rewrite full_match_lang. split.
  - intros H.
    apply lang_seq_inv in H as (a & r1 & -> & Ha & H).
    apply lang_seq_inv in H as (x & r2 & -> & Hx & H).
    apply lang_seq_inv in H as (b & r3 & -> & Hb & H).
    apply lang_seq_inv in H as (y & c & -> & Hy & Hc).
    apply lang_char in Hx, Hy. subst x y.
    apply lang_plus_class in Ha as [? ?], Hb as [? ?], Hc as [? ?].
    exists a, b, c. simpl. auto 10.
  - intros (a & b & c & -> & Ha & Hb & Hc & Fa & Fb & Fc).
    apply Regex.lang_seq; [apply lang_plus_class; auto|].
    apply (Regex.lang_seq _ _ ["@"%char]); [apply lang_char; reflexivity|].
    apply Regex.lang_seq; [apply lang_plus_class; auto|].
    apply (Regex.lang_seq _ _ ["."%char]); [apply lang_char; reflexivity|].
    apply lang_plus_class; auto.
Qed.

Example emailRegex_accepts : emailRegex_test "a@b.com" = true.
Proof. reflexivity. Qed.

Example emailRegex_rejects_no_tld : emailRegex_test "a@b" = false.
Proof. reflexivity. Qed.

Example emailRegex_rejects_space : emailRegex_test "a b@c.de" = false.
Proof. reflexivity. Qed.

Example emailRegex_rejects_two_ats : emailRegex_test "a@b@c.de" = false.
Proof. reflexivity. Qed.

Example emailRegex_accepts_dots : emailRegex_test "a.b@c.d.e" = true.
Proof. reflexivity. Qed.

(** ** The insertion-ordered Map *)

Section JsMapFacts.
Context {V : Type}.
Implicit Types (m : JsMap.t V) (k : string) (v : V).

Lemma get_set_eq m k v : JsMap.get k (JsMap.set k v m) = Some v.
Proof.
  induction m as [|[k' v'] m IH]; simpl.
  - now rewrite String.eqb_refl.
  - destruct (String.eqb k' k) eqn:E; simpl.
    + now rewrite String.eqb_refl.
    + now rewrite E.
Qed.

Lemma get_set_ne m k k' v :
  k <> k' -> JsMap.get k' (JsMap.set k v m) = JsMap.get k' m.
Proof.
  intros Hne. induction m as [|[k0 v0] m IH]; simpl.
  - apply String.eqb_neq in Hne. now rewrite Hne.
  - destruct (String.eqb k0 k) eqn:E; simpl.
    + apply String.eqb_eq in E. subst k0.
      apply String.eqb_neq in Hne. now rewrite Hne.
    + now rewrite IH.
Qed.

Lemma get_set m k k' v :
  JsMap.get k' (JsMap.set k v m) =
  if String.eqb k k' then Some v else JsMap.get k' m.
Proof.
  destruct (String.eqb k k') eqn:E.
  - apply String.eqb_eq in E. subst. apply get_set_eq.
  - apply String.eqb_neq in E. now apply get_set_ne.
Qed.

Lemma get_None_keys m k : JsMap.get k m = None <-> ~ In k (JsMap.keys m).
Proof.
  induction m as [|[k' v'] m IH]; simpl.
  - tauto.
  - destruct (String.eqb k' k) eqn:E.
    + apply String.eqb_eq in E. split; [discriminate | tauto].
    + apply String.eqb_neq in E. rewrite IH. tauto.
Qed.

Lemma get_Some_In m k v : JsMap.get k m = Some v -> In v (JsMap.values m).
Proof.
  induction m as [|[k' v'] m IH]; simpl; [discriminate|].
  destruct (String.eqb k' k); [intros [= ->]; now left | auto].
Qed.

Lemma In_get_Some m v :
  JsMap.wf m -> In v (JsMap.values m) ->
  exists k, JsMap.get k m = Some v /\ In (k, v) m.
Proof.
  unfold JsMap.wf.
  induction m as [|[k' v'] m IH]; simpl; [tauto|].
  intros Hnd [->|Hin].
  - exists k'. rewrite String.eqb_refl. auto.
  - apply NoDup_cons in Hnd as [Hk' Hnd].
    destruct (IH Hnd Hin) as (k & Hk & Hkv). exists k.
    destruct (String.eqb k' k) eqn:E; [|auto].
    apply String.eqb_eq in E. subst k'.
    exfalso. apply Hk', list_elem_of_In.
    change (In (fst (k, v)) (map fst m)). now apply in_map.
Qed.

(** A new key goes to the end. *)
Lemma set_fresh m k v :
  JsMap.get k m = None -> JsMap.set k v m = (m ++ [(k, v)])%list.
Proof.
  induction m as [|[k' v'] m IH]; simpl; [reflexivity|].
  destruct (String.eqb k' k); [discriminate|].
  intros H. now rewrite IH.
Qed.

(** An existing key keeps its place. *)
Lemma keys_set_present m k v v0 :
  JsMap.get k m = Some v0 -> JsMap.keys (JsMap.set k v m) = JsMap.keys m.
Proof.
  induction m as [|[k' v'] m IH]; simpl; [discriminate|].
  destruct (String.eqb k' k) eqn:E; simpl.
  - apply String.eqb_eq in E. now subst.
  - intros H. now rewrite IH.
Qed.

Lemma wf_set m k v : JsMap.wf m -> JsMap.wf (JsMap.set k v m).
Proof.
  unfold JsMap.wf. intros Hm.
  destruct (JsMap.get k m) as [v0|] eqn:E.
  - now rewrite (keys_set_present _ _ _ _ E).
  - rewrite (set_fresh _ _ _ E). unfold JsMap.keys. rewrite map_app. simpl.
    apply NoDup_app. split; [exact Hm|]. split.
    + intros x Hx Hx'. apply list_elem_of_In in Hx, Hx'.
      destruct Hx' as [<-|[]]. apply get_None_keys in E. contradiction.
    + apply NoDup_singleton.
Qed.
End JsMapFacts.

(** ** The sort *)

Section ArraySortFacts.
Context {A : Type}.
Variables (cmp : A -> A -> Z) (key : A -> Z).
Hypothesis cmp_key : forall a b, cmp a b = key b - key a.

Lemma sort_insert_perm x l : Permutation (sort_insert cmp x l) (x :: l).
Proof.
  induction l as [|y l IH]; simpl; [reflexivity|].
  destruct (cmp x y <=? 0); [reflexivity|].
  rewrite IH. apply perm_swap.
Qed.

Lemma array_sort_perm l : Permutation (array_sort cmp l) l.
Proof.
  induction l as [|x l IH]; simpl; [reflexivity|].
  rewrite sort_insert_perm. now apply perm_skip.
Qed.

Let desc (a b : A) : Prop := key b <= key a.

Lemma sort_insert_sorted x l :
  StronglySorted desc l -> StronglySorted desc (sort_insert cmp x l).
Proof.
  induction 1 as [|y l Hl IH Hy]; simpl.
  - repeat constructor.
  - destruct (cmp x y <=? 0) eqn:E.
    + apply Z.leb_le in E. rewrite cmp_key in E.
      constructor; [constructor; assumption|].
      constructor; [unfold desc; lia|].
      eapply Forall_impl; [exact Hy|]. unfold desc. intros; simpl in *; lia.
    + apply Z.leb_gt in E. rewrite cmp_key in E.
      constructor; [exact IH|].
      rewrite (sort_insert_perm x l).
      constructor; [unfold desc; lia | exact Hy].
Qed.

Lemma array_sort_sorted l : StronglySorted desc (array_sort cmp l).
Proof.
  induction l as [|x l IH]; simpl; [constructor|].
  now apply sort_insert_sorted.
Qed.

(** Stability: elements with the same key keep their order. *)
Lemma sort_insert_stable k x l :
  List.filter (fun a => key a =? k) (sort_insert cmp x l) =
  List.filter (fun a => key a =? k) (x :: l).
Proof.
  induction l as [|y l IH]; [reflexivity|].
  simpl sort_insert. destruct (cmp x y <=? 0) eqn:E; [reflexivity|].
  apply Z.leb_gt in E. rewrite cmp_key in E.
  simpl in *. rewrite IH.
  destruct (key x =? k) eqn:Ex, (key y =? k) eqn:Ey; try reflexivity.
  apply Z.eqb_eq in Ex, Ey. lia.
Qed.

Lemma array_sort_stable k l :
  List.filter (fun a => key a =? k) (array_sort cmp l) =
  List.filter (fun a => key a =? k) l.
Proof.
  induction l as [|x l IH]; [reflexivity|].
  simpl array_sort. rewrite sort_insert_stable. simpl. now rewrite IH.
Qed.
End ArraySortFacts.

Lemma newest_first_sort_sorted xs :
  newest_first_sorted (array_sort newest_first xs).
Proof.
  apply (array_sort_sorted newest_first Tx.createdAt). reflexivity.
Qed.

(** ** Sanity checks on the sample session *)

Example sample_transactions_created :
  JsMap.get "pi_1" (transactions ledger_created) =
  Some {| Tx.paymentIntentId := "pi_1"; Tx.userId := "u1"; Tx.userName := "A";
          Tx.userEmail := "a@b.com"; Tx.amount := 999; Tx.currency := "usd";
          Tx.status := "pending"; Tx.createdAt := 1000;
          Tx.deviceInfo := None; Tx.appVersion := None;
          Tx.purchaseType := "unlimited_video_selection";
          Tx.completedAt := None |}.
Proof. reflexivity. Qed.

Example sample_user_created :
  users ledger_created !! "u1" =
  Some {| User.userId := "u1"; User.userName := "A"; User.userEmail := "a@b.com";
          User.firstSeen := 1000; User.lastPurchaseAttempt := 1000;
          User.totalAttempts := 1; User.successfulPurchases := 0;
          User.totalSpent := 0; User.lastSuccessfulPurchase := None;
          User.isPremium := None |}.
Proof. vm_compute. reflexivity. Qed.

(** ** Confirmation *)

(** Runs [confirm_payment] up to the test of the gateway's status. *)
Ltac confirm_to_status Hp Hu Hg :=
  unfold confirm_payment; rewrite Hp, Hu, Hg.

(** What a confirmation that the gateway reports as succeeded does. *)
Lemma confirm_succeeded g now req l pid uid intent :
  truthy (ConfirmBody.paymentIntentId req) = Some pid ->
  truthy (ConfirmBody.userId req) = Some uid ->
  g pid = inr intent ->
  Stripe.Intent.status intent = "succeeded" ->
  confirm_payment g now req l =
  (json (ConfirmPaymentOk true "Payment confirmed successfully" pid
           (Stripe.Intent.amount intent) (Stripe.Intent.status intent)),
   {| transactions :=
        match JsMap.get pid (transactions l) with
        | Some x => JsMap.set pid (Tx.complete (completedNow now) x) (transactions l)
        | None => transactions l
        end;
      users :=
        match users l !! uid with
        | Some u =>
            <[uid := User.purchase (purchasedNow now)
                       (Stripe.Intent.amount intent) u]> (users l)
        | None => users l
        end |}).
Proof.
  intros Hp Hu Hg Hs. confirm_to_status Hp Hu Hg. now rewrite Hs.
Qed.

(** C2.  When the gateway reports a status other than [succeeded],
    confirm-payment answers 400 with that status, and the ledger (the
    transactions and the users) is the one it started from. *)
Theorem confirm_not_succeeded_no_mutation g now req l pid uid intent :
  truthy (ConfirmBody.paymentIntentId req) = Some pid ->
  truthy (ConfirmBody.userId req) = Some uid ->
  g pid = inr intent ->
  Stripe.Intent.status intent <> "succeeded" ->
  confirm_payment g now req l =
  ({| code := 400;
      body := ErrorBody "Payment not completed" None
                (Some (Stripe.Intent.status intent)) |}, l).
Proof.
  intros Hp Hu Hg Hs. confirm_to_status Hp Hu Hg.
  apply String.eqb_neq in Hs. now rewrite Hs.
Qed.

Lemma confirm_not_succeeded_no_mutation_witness :
  confirm_payment (gateway (sample_intent "pi_1" "requires_action" 999))
    (confirm_at 2000) (sample_confirm "pi_1" "u1") ledger_created =
  ({| code := 400;
      body := ErrorBody "Payment not completed" None (Some "requires_action") |},
   ledger_created).
Proof.
  apply (confirm_not_succeeded_no_mutation _ _ _ _ "pi_1" "u1"
           (sample_intent "pi_1" "requires_action" 999));
    [reflexivity | reflexivity | reflexivity | discriminate].
Defined.



(** C10.  The aggregates are updated on the record of the user id that the
    caller sends: its successfulPurchases goes up by one, its totalSpent by
    the gateway's amount, its lastSuccessfulPurchase is the time of the
    call and its isPremium is true.  The transaction under the payment
    reference is marked completed and keeps the user id it was created
    with; every other user record, the one of the transaction's own user
    included, stays as it is. *)
Theorem confirm_credits_supplied_user g now req l pid uid intent u :
  truthy (ConfirmBody.paymentIntentId req) = Some pid ->
  truthy (ConfirmBody.userId req) = Some uid ->
  g pid = inr intent ->
  Stripe.Intent.status intent = "succeeded" ->
  users l !! uid = Some u ->
  let l' := snd (confirm_payment g now req l) in
  users l' !! uid =
    Some {| User.userId := User.userId u;
            User.userName := User.userName u;
            User.userEmail := User.userEmail u;
            User.firstSeen := User.firstSeen u;
            User.lastPurchaseAttempt := User.lastPurchaseAttempt u;
            User.totalAttempts := User.totalAttempts u;
            User.successfulPurchases := User.successfulPurchases u + 1;
            User.totalSpent := User.totalSpent u + Stripe.Intent.amount intent;
            User.lastSuccessfulPurchase := Some (purchasedNow now);
            User.isPremium := Some true |} /\
  (forall other, other <> uid -> users l' !! other = users l !! other) /\
  (forall x, JsMap.get pid (transactions l) = Some x ->
     exists x', JsMap.get pid (transactions l') = Some x' /\
       Tx.status x' = "completed" /\ Tx.userId x' = Tx.userId x /\
       (Tx.userId x <> uid -> users l' !! Tx.userId x = users l !! Tx.userId x)).
Proof.
  intros Hp Hu Hg Hs Hl l'. subst l'.
  rewrite (confirm_succeeded _ _ _ _ _ _ _ Hp Hu Hg Hs). simpl. rewrite Hl.
  split; [apply lookup_insert_eq|].
  split; [intros other Hne; now apply lookup_insert_ne|].
  intros x Hx. rewrite Hx. exists (Tx.complete (completedNow now) x).
  split; [apply get_set_eq|]. split; [reflexivity|]. split; [reflexivity|].
  intros Hne. now apply lookup_insert_ne.
Qed.

Lemma confirm_credits_supplied_user_witness :
  let l' :=
    snd (confirm_payment (gateway (sample_intent "pi_1" "succeeded" 999))
           (confirm_at 2000) (sample_confirm "pi_1" "u2") ledger_two_users) in
  users l' !! "u2" =
    Some {| User.userId := "u2"; User.userName := "B";
            User.userEmail := "c@d.org"; User.firstSeen := 1500;
            User.lastPurchaseAttempt := 1500; User.totalAttempts := 1;
            User.successfulPurchases := 1; User.totalSpent := 999;
            User.lastSuccessfulPurchase := Some 2000;
            User.isPremium := Some true |} /\
  users l' !! "u1" = users ledger_two_users !! "u1" /\
  (User.successfulPurchases <$> users l' !! "u1") = Some 0 /\
  exists x', JsMap.get "pi_1" (transactions l') = Some x' /\
    Tx.status x' = "completed" /\ Tx.userId x' = "u1".
Proof.
  destruct (confirm_credits_supplied_user
              (gateway (sample_intent "pi_1" "succeeded" 999))
              (confirm_at 2000) (sample_confirm "pi_1" "u2") ledger_two_users
              "pi_1" "u2" (sample_intent "pi_1" "succeeded" 999) sample_u2
              eq_refl eq_refl eq_refl eq_refl eq_refl) as (H2 & Hother & Htx).
  split; [exact H2|].
  split; [apply Hother; discriminate|].
  split; [rewrite Hother by discriminate; reflexivity|].
  destruct (Htx _ eq_refl) as (x' & Hx' & Hst & Hid & _).
  exists x'. auto.
Defined.

(** ** Creation *)

(** What a create-payment call that passes validation and whose intent the
    gateway creates does. *)
Lemma create_succeeded g now req l e n u intent :
  truthy (CreateBody.userEmail req) = Some e ->
  truthy (CreateBody.userName req) = Some n ->
  truthy (CreateBody.userId req) = Some u ->
  emailRegex_test e = true ->
  (forall p, Stripe.Params.user_id p = u -> g p = inr intent) ->
  create_payment g now req l =
  (json (CreatePaymentOk (Stripe.Intent.client_secret intent)
           (Stripe.Intent.id intent) 999 "usd" u n e
           (Stripe.Intent.description intent) e (respondedNow now)),
   {| transactions :=
        JsMap.set (Stripe.Intent.id intent)
          {| Tx.paymentIntentId := Stripe.Intent.id intent;
             Tx.userId := u; Tx.userName := n; Tx.userEmail := e;
             Tx.amount := 999; Tx.currency := "usd"; Tx.status := "pending";
             Tx.createdAt := createdNow now;
             Tx.deviceInfo := CreateBody.deviceInfo req;
             Tx.appVersion := CreateBody.appVersion req;
             Tx.purchaseType :=
               default "unlimited_video_selection" (CreateBody.purchaseType req);
             Tx.completedAt := None |}
          (transactions l);
      users :=
        match users l !! u with
        | Some existingUser =>
            <[u := User.attempt (attemptNow now) existingUser]> (users l)
        | None =>
            <[u := {| User.userId := u; User.userName := n; User.userEmail := e;
                      User.firstSeen := firstSeenNow now;
                      User.lastPurchaseAttempt := attemptNow now;
                      User.totalAttempts := 1; User.successfulPurchases := 0;
                      User.totalSpent := 0; User.lastSuccessfulPurchase := None;
                      User.isPremium := None |}]> (users l)
        end |}).
Proof.
  intros He Hn Hu Hre Hg. unfold create_payment.
  rewrite He, Hn, Hu, Hre. simpl. rewrite Hg by reflexivity. reflexivity.
Qed.

(** A create-payment call either answers 200 after passing validation and
    getting an intent from the gateway, or answers 400 and leaves the
    ledger alone. *)
Lemma create_cases g now req l :
  (exists e n u intent,
     truthy (CreateBody.userEmail req) = Some e /\
     truthy (CreateBody.userName req) = Some n /\
     truthy (CreateBody.userId req) = Some u /\
     emailRegex_test e = true /\
     fst (create_payment g now req l) =
       json (CreatePaymentOk (Stripe.Intent.client_secret intent)
               (Stripe.Intent.id intent) 999 "usd" u n e
               (Stripe.Intent.description intent) e (respondedNow now)) /\
     create_payment g now req l = create_payment (gateway intent) now req l) \/
  (code (fst (create_payment g now req l)) = 400 /\
   (exists err ty, body (fst (create_payment g now req l)) = ErrorBody err ty None) /\
   snd (create_payment g now req l) = l).
Proof.
  unfold create_payment.
  destruct (truthy (CreateBody.userEmail req)) as [e|];
    [|right; simpl; eauto].
  destruct (truthy (CreateBody.userName req)) as [n|];
    [|right; simpl; eauto].
  destruct (truthy (CreateBody.userId req)) as [u|];
    [|right; simpl; eauto].
  destruct (emailRegex_test e) eqn:Hre; simpl; [|right; simpl; eauto].
  match goal with |- context [g ?p] => destruct (g p) as [err|intent] eqn:Hg end.
  - right. simpl. eauto.
  - left. exists e, n, u, intent. unfold gateway. simpl. auto 10.
Qed.

(** C6.  create-payment answers 400 "Missing required user information"
    when userEmail, userName or userId is absent (or empty), and 400
    "Invalid email format" when the three are there and userEmail has not
    the shape local@domain.tld; in both cases the ledger is the one it
    started from. *)
Theorem create_validation_errors g now req l :
  (truthy (CreateBody.userEmail req) = None \/
   truthy (CreateBody.userName req) = None \/
   truthy (CreateBody.userId req) = None ->
   create_payment g now req l =
     ({| code := 400; body := ErrorBody missing_user_information None None |}, l))
  /\
  (forall e n u,
     truthy (CreateBody.userEmail req) = Some e ->
     truthy (CreateBody.userName req) = Some n ->
     truthy (CreateBody.userId req) = Some u ->
     ~ email_shape e ->
     create_payment g now req l =
       ({| code := 400; body := ErrorBody "Invalid email format" None None |}, l)).
Proof.
  split.
  - intros H. unfold create_payment.
    destruct (truthy (CreateBody.userEmail req)),
             (truthy (CreateBody.userName req)),
             (truthy (CreateBody.userId req)); try reflexivity.
    destruct H as [H|[H|H]]; discriminate.
  - intros e n u He Hn Hu Hshape. unfold create_payment.
    rewrite He, Hn, Hu.
    destruct (emailRegex_test e) eqn:Hre; [|reflexivity].
    apply emailRegex_test_shape in Hre. contradiction.
Qed.

Lemma create_validation_errors_witness :
  create_payment (gateway (sample_intent "pi_3" "requires_payment_method" 999))
    (create_at 1700)
    {| CreateBody.userEmail := None; CreateBody.userName := Some "A";
       CreateBody.userId := Some "u1"; CreateBody.deviceInfo := None;
       CreateBody.appVersion := None; CreateBody.purchaseType := None |}
    ledger_created =
  ({| code := 400; body := ErrorBody missing_user_information None None |},
   ledger_created) /\
  create_payment (gateway (sample_intent "pi_3" "requires_payment_method" 999))
    (create_at 1700)
    {| CreateBody.userEmail := Some "a@b"; CreateBody.userName := Some "A";
       CreateBody.userId := Some "u1"; CreateBody.deviceInfo := None;
       CreateBody.appVersion := None; CreateBody.purchaseType := None |}
    ledger_created =
  ({| code := 400; body := ErrorBody "Invalid email format" None None |},
   ledger_created).
Proof.
  split.
  - apply create_validation_errors. left. reflexivity.
  - apply (create_validation_errors _ _ _ _) with (e := "a@b") (n := "A") (u := "u1");
      try reflexivity.
    intros H. apply emailRegex_test_shape in H. discriminate H.
Defined.

Lemma truthy_Some v s : truthy v = Some s <-> v = Some s /\ s <> "".
Proof.
  unfold truthy. destruct v as [s'|].
  - destruct (String.eqb s' "") eqn:E.
    + apply String.eqb_eq in E. split; [discriminate|]. intros [[= ->] H]. contradiction.
    + apply String.eqb_neq in E. split.
      * intros [= ->]. auto.
      * intros [[= ->] _]. reflexivity.
  - split; [discriminate | intros [H _]; discriminate].
Qed.

(** ** One purchase, from creation to confirmation *)

(** C3.  From the empty ledger, one create-payment call that succeeds for
    user [u] and returns payment reference [pid], followed by one
    confirm-payment call for [pid] and [u] that the gateway reports as
    succeeded with amount 999, leaves the transaction completed with
    completedAt set, and the user with successfulPurchases = 1,
    totalSpent = 999 and isPremium = true. *)
Theorem create_then_confirm g1 now1 req1 g2 now2 req2
    secret pid amt cur u n e d re ts intent :
  body (fst (create_payment g1 now1 req1 empty_ledger)) =
    CreatePaymentOk secret pid amt cur u n e d re ts ->
  pid <> "" ->
  ConfirmBody.paymentIntentId req2 = Some pid ->
  ConfirmBody.userId req2 = Some u ->
  g2 pid = inr intent ->
  Stripe.Intent.status intent = "succeeded" ->
  Stripe.Intent.amount intent = 999 ->
  let l1 := snd (create_payment g1 now1 req1 empty_ledger) in
  let l2 := snd (confirm_payment g2 now2 req2 l1) in
  code (fst (confirm_payment g2 now2 req2 l1)) = 200 /\
  (exists x, JsMap.get pid (transactions l2) = Some x /\
     Tx.status x = "completed" /\
     Tx.completedAt x = Some (completedNow now2) /\
     Tx.userId x = u /\ Tx.amount x = 999) /\
  (exists usr, users l2 !! u = Some usr /\
     User.successfulPurchases usr = 1 /\
     User.totalSpent usr = 999 /\
     User.isPremium usr = Some true).
Proof.
  intros Hbody Hpid Hp Hu Hg Hs Ha l1 l2. subst l1 l2.
  destruct (create_cases g1 now1 req1 empty_ledger)
    as [(e' & n' & u' & i1 & He & Hn & Hu' & Hre & Hfst & Hsame)
       |(_ & (err & ty & Herr) & _)];
    [|rewrite Herr in Hbody; discriminate].
  rewrite Hfst in Hbody. simpl in Hbody.
  injection Hbody as _ Hid _ _ Hueq _ _ _ _ _. subst u' pid.
  rewrite Hsame.
  rewrite (create_succeeded (gateway i1) now1 req1 empty_ledger e' n' u i1
             He Hn Hu' Hre (fun _ _ => eq_refl)). simpl.
  assert (Hp' : truthy (ConfirmBody.paymentIntentId req2) = Some (Stripe.Intent.id i1))
    by (apply truthy_Some; auto).
  assert (Hu2 : truthy (ConfirmBody.userId req2) = Some u).
  { apply truthy_Some. split; [exact Hu|]. apply truthy_Some in Hu'. tauto. }
  rewrite (confirm_succeeded _ _ _ _ _ _ _ Hp' Hu2 Hg Hs). simpl.
  split; [reflexivity|]. split.
  - rewrite String.eqb_refl. simpl. rewrite String.eqb_refl.
    eexists. split; [reflexivity|]. simpl. auto.
  - rewrite lookup_empty, lookup_insert_eq, lookup_insert_eq.
    eexists. split; [reflexivity|]. simpl. rewrite Ha. auto.
Qed.

Lemma create_then_confirm_witness :
  (exists x, JsMap.get "pi_1" (transactions ledger_confirmed) = Some x /\
     Tx.status x = "completed" /\ Tx.completedAt x = Some 2000 /\
     Tx.userId x = "u1" /\ Tx.amount x = 999) /\
  (exists usr, users ledger_confirmed !! "u1" = Some usr /\
     User.successfulPurchases usr = 1 /\
     User.totalSpent usr = 999 /\
     User.isPremium usr = Some true).
Proof.
  refine (proj2 (create_then_confirm
            (gateway (sample_intent "pi_1" "requires_payment_method" 999))
            (create_at 1000) sample_create
            (gateway (sample_intent "pi_1" "succeeded" 999))
            (confirm_at 2000) (sample_confirm "pi_1" "u1")
            "pi_1_secret" "pi_1" 999 "usd" "u1" "A" "a@b.com"
            "Kid Tok Premium - Unlimited Video Access for A" "a@b.com" 1000
            (sample_intent "pi_1" "succeeded" 999)
            eq_refl _ eq_refl eq_refl eq_refl eq_refl eq_refl)).
  discriminate.
Defined.

(** ** Confirming twice *)

(** A confirm-payment call leaves the ledger alone, or is a confirmation
    that the gateway reports as succeeded. *)
Lemma confirm_cases g now req l :
  snd (confirm_payment g now req l) = l \/
  exists pid uid intent,
    truthy (ConfirmBody.paymentIntentId req) = Some pid /\
    truthy (ConfirmBody.userId req) = Some uid /\
    g pid = inr intent /\
    Stripe.Intent.status intent = "succeeded".
Proof.
  unfold confirm_payment.
  destruct (truthy (ConfirmBody.paymentIntentId req)) as [pid|]; [|now left].
  destruct (truthy (ConfirmBody.userId req)) as [uid|]; [|now left].
  destruct (g pid) as [err|intent] eqn:Hg; [now left|].
  destruct (String.eqb (Stripe.Intent.status intent) "succeeded") eqn:Hs; [|now left].
  apply String.eqb_eq in Hs. right. exists pid, uid, intent. auto.
Qed.

Lemma confirm_transactions g now req l k :
  JsMap.get k (transactions (snd (confirm_payment g now req l))) =
    JsMap.get k (transactions l) \/
  exists x,
    JsMap.get k (transactions l) = Some x /\
    JsMap.get k (transactions (snd (confirm_payment g now req l))) =
      Some (Tx.complete (completedNow now) x).
Proof.
  destruct (confirm_cases g now req l)
    as [->|(pid & uid & intent & Hp & Hu & Hg & Hs)]; [now left|].
  rewrite (confirm_succeeded _ _ _ _ _ _ _ Hp Hu Hg Hs). simpl.
  destruct (JsMap.get pid (transactions l)) as [x|] eqn:Hx; [|now left].
  rewrite get_set. destruct (String.eqb pid k) eqn:E; [|now left].
  apply String.eqb_eq in E. subst k. right. eauto.
Qed.

Lemma confirm_users g now req l u :
  users (snd (confirm_payment g now req l)) !! u = users l !! u \/
  exists usr paid,
    users l !! u = Some usr /\
    users (snd (confirm_payment g now req l)) !! u =
      Some (User.purchase (purchasedNow now) paid usr).
Proof.
  destruct (confirm_cases g now req l)
    as [->|(pid & uid & intent & Hp & Hu & Hg & Hs)]; [now left|].
  rewrite (confirm_succeeded _ _ _ _ _ _ _ Hp Hu Hg Hs). simpl.
  destruct (users l !! uid) as [usr|] eqn:Hx; [|now left].
  destruct (decide (uid = u)) as [->|Hne].
  - right. exists usr, (Stripe.Intent.amount intent).
    split; [exact Hx | apply lookup_insert_eq].
  - left. now apply lookup_insert_ne.
Qed.

(** C1, as the code has it.  Confirming a completed transaction again, with
    the gateway reporting succeeded, is not a no-op: the status stays
    completed and the other fields of the transaction stay as they are,
    but completedAt is overwritten with the time of this call, and no
    other transaction changes, whether or not a user record exists under
    the user id sent.  When one exists, successfulPurchases is incremented
    and the gateway's amount is added to totalSpent once more,
    lastSuccessfulPurchase is set to the time of this call, and isPremium
    stays true; when none exists, none is created.  No other user record
    changes. *)
Theorem confirm_again_recounts g now req l pid uid intent x :
  truthy (ConfirmBody.paymentIntentId req) = Some pid ->
  truthy (ConfirmBody.userId req) = Some uid ->
  g pid = inr intent ->
  Stripe.Intent.status intent = "succeeded" ->
  JsMap.get pid (transactions l) = Some x ->
  Tx.status x = "completed" ->
  let l' := snd (confirm_payment g now req l) in
  JsMap.get pid (transactions l') =
    Some {| Tx.paymentIntentId := Tx.paymentIntentId x; Tx.userId := Tx.userId x;
            Tx.userName := Tx.userName x; Tx.userEmail := Tx.userEmail x;
            Tx.amount := Tx.amount x; Tx.currency := Tx.currency x;
            Tx.status := Tx.status x; Tx.createdAt := Tx.createdAt x;
            Tx.deviceInfo := Tx.deviceInfo x; Tx.appVersion := Tx.appVersion x;
            Tx.purchaseType := Tx.purchaseType x;
            Tx.completedAt := Some (completedNow now) |} /\
  (forall k, k <> pid ->
     JsMap.get k (transactions l') = JsMap.get k (transactions l)) /\
  users l' !! uid =
    match users l !! uid with
    | Some usr =>
        Some {| User.userId := User.userId usr;
                User.userName := User.userName usr;
                User.userEmail := User.userEmail usr;
                User.firstSeen := User.firstSeen usr;
                User.lastPurchaseAttempt := User.lastPurchaseAttempt usr;
                User.totalAttempts := User.totalAttempts usr;
                User.successfulPurchases := User.successfulPurchases usr + 1;
                User.totalSpent :=
                  User.totalSpent usr + Stripe.Intent.amount intent;
                User.lastSuccessfulPurchase := Some (purchasedNow now);
                User.isPremium := Some true |}
    | None => None
    end /\
  (forall other, other <> uid -> users l' !! other = users l !! other).
Proof.
  intros Hp Hu Hg Hs Hx Hst l'. subst l'.
  rewrite (confirm_succeeded _ _ _ _ _ _ _ Hp Hu Hg Hs). simpl.
  rewrite Hx. split; [|split; [|split]].
  - rewrite get_set_eq. unfold Tx.complete. now rewrite Hst.
  - intros k Hk. apply get_set_ne. congruence.
  - destruct (users l !! uid) as [usr|] eqn:Husr.
    + apply lookup_insert_eq.
    + exact Husr.
  - intros other Hne.
    destruct (users l !! uid); [now apply lookup_insert_ne | reflexivity].
Qed.

Lemma confirm_again_recounts_witness :
  (exists x, JsMap.get "pi_1" (transactions ledger_confirmed_twice) = Some x /\
     Tx.status x = "completed" /\ Tx.completedAt x = Some 3000) /\
  (exists usr, users ledger_confirmed_twice !! "u1" = Some usr /\
     User.successfulPurchases usr = 2 /\ User.totalSpent usr = 1998 /\
     User.isPremium usr = Some true) /\
  (exists x,
     JsMap.get "pi_1"
       (transactions
          (snd (confirm_payment (gateway (sample_intent "pi_1" "succeeded" 999))
                  (confirm_at 3000) (sample_confirm "pi_1" "u9")
                  ledger_confirmed))) = Some x /\
     Tx.status x = "completed" /\ Tx.completedAt x = Some 3000) /\
  users (snd (confirm_payment (gateway (sample_intent "pi_1" "succeeded" 999))
                (confirm_at 3000) (sample_confirm "pi_1" "u9")
                ledger_confirmed)) !! "u9" = None.
Proof.
  destruct (confirm_again_recounts
              (gateway (sample_intent "pi_1" "succeeded" 999))
              (confirm_at 3000) (sample_confirm "pi_1" "u1") ledger_confirmed
              "pi_1" "u1" (sample_intent "pi_1" "succeeded" 999)
              (Tx.complete 2000
                 {| Tx.paymentIntentId := "pi_1"; Tx.userId := "u1";
                    Tx.userName := "A"; Tx.userEmail := "a@b.com";
                    Tx.amount := 999; Tx.currency := "usd";
                    Tx.status := "pending"; Tx.createdAt := 1000;
                    Tx.deviceInfo := None; Tx.appVersion := None;
                    Tx.purchaseType := "unlimited_video_selection";
                    Tx.completedAt := None |})
              eq_refl eq_refl eq_refl eq_refl eq_refl eq_refl)
    as (Ht & _ & Hu & _).
  destruct (confirm_again_recounts
              (gateway (sample_intent "pi_1" "succeeded" 999))
              (confirm_at 3000) (sample_confirm "pi_1" "u9") ledger_confirmed
              "pi_1" "u9" (sample_intent "pi_1" "succeeded" 999)
              (Tx.complete 2000
                 {| Tx.paymentIntentId := "pi_1"; Tx.userId := "u1";
                    Tx.userName := "A"; Tx.userEmail := "a@b.com";
                    Tx.amount := 999; Tx.currency := "usd";
                    Tx.status := "pending"; Tx.createdAt := 1000;
                    Tx.deviceInfo := None; Tx.appVersion := None;
                    Tx.purchaseType := "unlimited_video_selection";
                    Tx.completedAt := None |})
              eq_refl eq_refl eq_refl eq_refl eq_refl eq_refl)
    as (Ht' & _ & Hu' & _).
  split; [eexists; split; [exact Ht | split; reflexivity]|].
  split; [eexists; split; [exact Hu | repeat split; reflexivity]|].
  split; [eexists; split; [exact Ht' | split; reflexivity]|].
  exact Hu'.
Defined.

(** C1 fails as stated: after the sample purchase has been confirmed at
    time 2000, a second confirmation at time 3000 moves completedAt from
    2000 to 3000 and takes successfulPurchases from 1 to 2 and totalSpent
    from 999 to 1998. *)
Lemma confirm_twice_not_idempotent :
  (Tx.status <$> JsMap.get "pi_1" (transactions ledger_confirmed)) = Some "completed" /\
  (Tx.completedAt <$> JsMap.get "pi_1" (transactions ledger_confirmed)) = Some (Some 2000) /\
  (Tx.completedAt <$> JsMap.get "pi_1" (transactions ledger_confirmed_twice)) = Some (Some 3000) /\
  (User.successfulPurchases <$> users ledger_confirmed !! "u1") = Some 1 /\
  (User.successfulPurchases <$> users ledger_confirmed_twice !! "u1") = Some 2 /\
  (User.totalSpent <$> users ledger_confirmed !! "u1") = Some 999 /\
  (User.totalSpent <$> users ledger_confirmed_twice !! "u1") = Some 1998 /\
  ledger_confirmed_twice <> ledger_confirmed.
Proof.
  repeat split; try (vm_compute; reflexivity).
  intros H. apply (f_equal (fun l => Tx.completedAt <$> JsMap.get "pi_1" (transactions l))) in H.
  vm_compute in H. discriminate H.
Qed.

(** ** Attempts *)

Lemma attempt_totalAttempts now usr :
  User.totalAttempts (User.attempt now usr) = User.totalAttempts usr + 1.
Proof.
  simpl. destruct (User.totalAttempts usr =? 0) eqn:E; [|reflexivity].
  apply Z.eqb_eq in E. now rewrite E.
Qed.

(** One request: the record of [u] appears with a successful creation for
    [u] and never goes away, and its counter moves by one exactly then. *)
Lemma step_attempts l op u :
  attempts (step l op) u = attempts l u + (if created_for u op l then 1 else 0) /\
  (is_Some (users (step l op) !! u) <->
   is_Some (users l !! u) \/ created_for u op l = true).
Proof.
  unfold step, attempts. destruct op as [g now req|g now req]; simpl.
  - destruct (create_cases g now req l)
      as [(e & n & u' & intent & He & Hn & Hu & Hre & Hfst & Hsame)
         |(Hcode & _ & Hsnd)].
    + rewrite Hfst. simpl. rewrite Hu. rewrite Hsame.
      rewrite (create_succeeded (gateway intent) now req l e n u' intent
                 He Hn Hu Hre (fun _ _ => eq_refl)). simpl.
      destruct (decide (u' = u)) as [->|Hne].
      * rewrite bool_decide_eq_true_2 by reflexivity.
        destruct (users l !! u) as [usr|] eqn:Hl; rewrite lookup_insert_eq.
        -- rewrite attempt_totalAttempts. split; [reflexivity|].
           split; eauto.
        -- simpl. split; [reflexivity|]. split; eauto.
      * rewrite bool_decide_eq_false_2 by congruence.
        assert (Hsame' :
          (match users l !! u' with
           | Some existingUser =>
               <[u' := User.attempt (attemptNow now) existingUser]> (users l)
           | None =>
               <[u' := {| User.userId := u'; User.userName := n;
                          User.userEmail := e;
                          User.firstSeen := firstSeenNow now;
                          User.lastPurchaseAttempt := attemptNow now;
                          User.totalAttempts := 1;
                          User.successfulPurchases := 0;
                          User.totalSpent := 0;
                          User.lastSuccessfulPurchase := None;
                          User.isPremium := None |}]> (users l)
           end) !! u = users l !! u).
        { destruct (users l !! u'); now apply lookup_insert_ne. }
        rewrite Hsame'. split; [lia|]. split; [auto|].
        intros [H|H]; [exact H | discriminate].
    + rewrite Hsnd, Hcode. simpl. split; [lia|]. split; [auto|].
      intros [H|H]; [exact H | discriminate].
  - destruct (confirm_users g now req l u) as [->|(usr & paid & Hl & ->)].
    + split; [lia|]. split; [auto|]. intros [H|H]; [exact H | discriminate].
    + rewrite Hl. simpl. split; [lia|]. split; [eauto|]. eauto.
Qed.

Lemma run_attempts ops : forall l u,
  attempts (run l ops) u = attempts l u + Z.of_nat (creates_for u l ops) /\
  (is_Some (users (run l ops) !! u) <->
   is_Some (users l !! u) \/ (0 < creates_for u l ops)%nat).
Proof.
  induction ops as [|op ops IH]; intros l u; simpl.
  - split; [lia|]. split; [auto | intros [H|H]; [exact H | lia]].
  - destruct (IH (step l op) u) as [IHa IHs].
    destruct (step_attempts l op u) as [Ha Hs].
    fold (run (step l op) ops). rewrite IHa, Ha, IHs, Hs.
    destruct (created_for u op l); cbv iota; split; try lia.
    split.
    + intros [[H|H]|H]; [left; exact H | discriminate | right; lia].
    + intros [H|H]; [left; left; exact H | right; lia].
Qed.

(** C4.  After any sequence of requests from the empty ledger, a user for
    whom no create-payment call succeeded has no record, and a user for
    whom [n > 0] such calls succeeded has a record with totalAttempts = n.
    A successful call for a user who has a record changes only
    lastPurchaseAttempt and totalAttempts on it (successfulPurchases,
    totalSpent and isPremium stay); for a user who has none it stores a
    record with totalAttempts = 1 and zeroed aggregates.  No other user's
    record changes. *)
Theorem create_counts_attempts :
  (forall ops u,
     match users (run empty_ledger ops) !! u with
     | Some usr =>
         (0 < creates_for u empty_ledger ops)%nat /\
         User.totalAttempts usr = Z.of_nat (creates_for u empty_ledger ops)
     | None => creates_for u empty_ledger ops = 0%nat
     end) /\
  (forall g now req l secret pid amt cur u n e d re ts,
     body (fst (create_payment g now req l)) =
       CreatePaymentOk secret pid amt cur u n e d re ts ->
     let l' := snd (create_payment g now req l) in
     users l' !! u =
       Some match users l !! u with
            | Some usr =>
                {| User.userId := User.userId usr;
                   User.userName := User.userName usr;
                   User.userEmail := User.userEmail usr;
                   User.firstSeen := User.firstSeen usr;
                   User.lastPurchaseAttempt := attemptNow now;
                   User.totalAttempts := User.totalAttempts usr + 1;
                   User.successfulPurchases := User.successfulPurchases usr;
                   User.totalSpent := User.totalSpent usr;
                   User.lastSuccessfulPurchase := User.lastSuccessfulPurchase usr;
                   User.isPremium := User.isPremium usr |}
            | None =>
                {| User.userId := u; User.userName := n; User.userEmail := e;
                   User.firstSeen := firstSeenNow now;
                   User.lastPurchaseAttempt := attemptNow now;
                   User.totalAttempts := 1;
                   User.successfulPurchases := 0;
                   User.totalSpent := 0;
                   User.lastSuccessfulPurchase := None;
                   User.isPremium := None |}
            end /\
     forall other, other <> u -> users l' !! other = users l !! other).
Proof.
  split.
  - intros ops u.
    destruct (run_attempts ops empty_ledger u) as [Ha Hs].
    unfold attempts in Ha. simpl in Ha, Hs. rewrite lookup_empty in Ha, Hs.
    destruct (users (run empty_ledger ops) !! u) as [usr|] eqn:Hl.
    + assert (H : is_Some (Some usr)) by eauto.
      apply Hs in H as [[? H]|H]; [discriminate|]. split; [exact H | lia].
    + lia.
  - intros g now req l secret pid amt cur u n e d re ts Hbody l'. subst l'.
    destruct (create_cases g now req l)
      as [(e' & n' & u' & intent & He & Hn & Hu & Hre & Hfst & Hsame)
         |(_ & (err & ty & Herr) & _)];
      [|rewrite Herr in Hbody; discriminate].
    rewrite Hfst in Hbody. simpl in Hbody.
    injection Hbody as _ _ _ _ -> -> -> _ _ _.
    rewrite Hsame.
    rewrite (create_succeeded (gateway intent) now req l e n u intent
               He Hn Hu Hre (fun _ _ => eq_refl)). simpl.
    destruct (users l !! u) as [usr|] eqn:Hl.
    + split; [|intros other Hne; now apply lookup_insert_ne].
      rewrite lookup_insert_eq. unfold User.attempt. f_equal. f_equal.
      destruct (User.totalAttempts usr =? 0) eqn:E; [|reflexivity].
      apply Z.eqb_eq in E. now rewrite E.
    + split; [apply lookup_insert_eq|].
      intros other Hne; now apply lookup_insert_ne.
Qed.

Lemma create_counts_attempts_witness :
  (0 < creates_for "u1" empty_ledger two_creates)%nat /\
  (User.totalAttempts <$> users (run empty_ledger two_creates) !! "u1") = Some 2 /\
  (User.totalAttempts <$>
     users (snd (create_payment
                   (gateway (sample_intent "pi_2" "requires_payment_method" 999))
                   (create_at 1500) sample_create ledger_confirmed)) !! "u1") = Some 2 /\
  (User.totalSpent <$>
     users (snd (create_payment
                   (gateway (sample_intent "pi_2" "requires_payment_method" 999))
                   (create_at 1500) sample_create ledger_confirmed)) !! "u1") = Some 999.
Proof.
  pose proof (proj1 create_counts_attempts two_creates "u1") as H.
  destruct (proj2 create_counts_attempts
              (gateway (sample_intent "pi_2" "requires_payment_method" 999))
              (create_at 1500) sample_create ledger_confirmed
              "pi_2_secret" "pi_2" 999 "usd" "u1" "A" "a@b.com"
              "Kid Tok Premium - Unlimited Video Access for A" "a@b.com" 1500
              eq_refl) as [H2 _].
  split; [|split; [|rewrite H2; split; reflexivity]].
  - destruct (users _ !! "u1") as [usr|]; [tauto | discriminate H].
  - destruct (users _ !! "u1") as [usr|]; [|discriminate H].
    destruct H as [_ Hn]. simpl. now rewrite Hn.
Defined.

(** ** Status *)

Lemma create_transactions g now req l :
  snd (create_payment g now req l) = l \/
  exists secret pid amt cur u n e d re ts x,
    body (fst (create_payment g now req l)) =
      CreatePaymentOk secret pid amt cur u n e d re ts /\
    Tx.status x = "pending" /\
    transactions (snd (create_payment g now req l)) =
      JsMap.set pid x (transactions l).
Proof.
  destruct (create_cases g now req l)
    as [(e & n & u & intent & He & Hn & Hu & Hre & Hfst & Hsame)
       |(_ & _ & Hsnd)]; [|now left].
  right. rewrite Hfst, Hsame.
  rewrite (create_succeeded (gateway intent) now req l e n u intent
             He Hn Hu Hre (fun _ _ => eq_refl)). simpl.
  do 10 eexists. eexists. split; [reflexivity|]. split; [|reflexivity].
  reflexivity.
Qed.

(** Every request keeps the stored statuses within pending and completed. *)
Lemma step_status_ok l op : status_ok l -> status_ok (step l op).
Proof.
  unfold status_ok, step. intros Hl k x'.
  destruct op as [g now req|g now req]; simpl.
  - destruct (create_transactions g now req l)
      as [->|(secret & pid & amt & cur & u & n & e & d & re & ts & x & _ & Hst & ->)];
      [apply Hl|].
    rewrite get_set. destruct (String.eqb pid k); [|apply Hl].
    intros [= <-]. now left.
  - destruct (confirm_transactions g now req l k) as [->|(x & Hx & ->)];
      [apply Hl|].
    intros [= <-]. now right.
Qed.

Lemma reachable_status_ok l : reachable l -> status_ok l.
Proof.
  induction 1 as [|l op _ IH _].
  - intros k x. discriminate.
  - now apply step_status_ok.
Qed.

(** C5.  In every ledger the handlers can reach (the gateway naming each
    new intent with an identifier of its own), and for every request, each
    stored status is pending or completed before and after the request;
    no transaction disappears, and one that was completed before the
    request is completed after it. *)
Theorem status_monotonic l op :
  reachable l ->
  issues_fresh_id op l ->
  status_ok l /\
  status_ok (step l op) /\
  forall k x, JsMap.get k (transactions l) = Some x ->
    exists x', JsMap.get k (transactions (step l op)) = Some x' /\
      (Tx.status x = "completed" -> Tx.status x' = "completed").
Proof.
  intros Hr Hfresh.
  pose proof (reachable_status_ok l Hr) as Hok.
  split; [exact Hok|]. split; [now apply step_status_ok|].
  intros k x Hx. unfold step.
  destruct op as [g now req|g now req]; simpl in *.
  - destruct (create_transactions g now req l)
      as [->|(secret & pid & amt & cur & u & n & e & d & re & ts & x0 & Hb & _ & ->)];
      [eauto|].
    rewrite Hb in Hfresh.
    rewrite get_set_ne by (intros ->; congruence). eauto.
  - destruct (confirm_transactions g now req l k) as [->|(x0 & Hx0 & ->)];
      [eauto|].
    eexists. split; [reflexivity|]. reflexivity.
Qed.

Lemma status_monotonic_witness :
  status_ok ledger_confirmed /\
  status_ok
    (step ledger_confirmed
       (CreatePayment (gateway (sample_intent "pi_2" "requires_payment_method" 999))
          (create_at 2500) sample_create_u2)) /\
  exists x',
    JsMap.get "pi_1"
      (transactions
         (step ledger_confirmed
            (CreatePayment
               (gateway (sample_intent "pi_2" "requires_payment_method" 999))
               (create_at 2500) sample_create_u2))) = Some x' /\
    Tx.status x' = "completed".
Proof.
  assert (Hr : reachable ledger_confirmed).
  { unfold ledger_confirmed, ledger_created.
    apply reachable_step; [apply reachable_step; [apply reachable_empty|]|];
      vm_compute; auto. }
  destruct (status_monotonic ledger_confirmed
              (CreatePayment
                 (gateway (sample_intent "pi_2" "requires_payment_method" 999))
                 (create_at 2500) sample_create_u2) Hr eq_refl)
    as (H1 & H2 & H3).
  split; [exact H1|]. split; [exact H2|].
  destruct (H3 "pi_1" _ eq_refl) as (x' & Hx' & Hst).
  exists x'. split; [exact Hx'|]. apply Hst. reflexivity.
Defined.

(** The gateway's unique identifiers carry the property: were an identifier
    issued a second time, create-payment would store a pending transaction
    over the completed one. *)
Remark create_reused_id_resets :
  (Tx.status <$> JsMap.get "pi_1" (transactions ledger_confirmed)) = Some "completed" /\
  (Tx.status <$>
     JsMap.get "pi_1"
       (transactions
          (step ledger_confirmed
             (CreatePayment
                (gateway (sample_intent "pi_1" "requires_payment_method" 999))
                (create_at 2500) sample_create)))) = Some "pending".
Proof. split; reflexivity. Qed.

(** ** Reports *)

Lemma filter_perm {A} (p : A -> bool) (l l' : list A) :
  Permutation l l' -> Permutation (List.filter p l) (List.filter p l').
Proof.
  induction 1 as [|x l l' _ IH|x y l|l l' l'' _ IH1 _ IH2]; simpl.
  - reflexivity.
  - destruct (p x); [now apply perm_skip | exact IH].
  - destruct (p x), (p y); try reflexivity. apply perm_swap.
  - now rewrite IH1.
Qed.

Lemma count_where_values p m :
  length (List.filter p (JsMap.values m)) = count_where p m.
Proof.
  induction m as [|[k x] m IH]; simpl; [reflexivity|].
  destruct (p x); simpl; now rewrite IH.
Qed.

Lemma count_sorted p (xs : list Tx.t) :
  length (List.filter p (array_sort newest_first xs)) = length (List.filter p xs).
Proof.
  apply Permutation_length, filter_perm, array_sort_perm.
Qed.

Lemma sum_perm (f : Tx.t -> Z) (l l' : list Tx.t) :
  Permutation l l' ->
  forall a, fold_left (fun sum x => sum + f x) l a =
            fold_left (fun sum x => sum + f x) l' a.
Proof.
  induction 1 as [|x l l' _ IH|x y l|l l' l'' _ IH1 _ IH2]; intros a; simpl.
  - reflexivity.
  - apply IH.
  - f_equal. lia.
  - now rewrite IH1.
Qed.

Lemma sum_completed_values m a :
  fold_left (fun sum x => sum + Tx.amount x)
    (List.filter is_completed (JsMap.values m)) a = a + revenue m.
Proof.
  revert a. induction m as [|[k x] m IH]; intros a; simpl; [lia|].
  unfold is_completed at 1.
  destruct (String.eqb (Tx.status x) "completed"); simpl; rewrite IH; lia.
Qed.

Lemma filter_filter {A} (p q : A -> bool) (l : list A) :
  List.filter p (List.filter q l) = List.filter (fun x => q x && p x) l.
Proof.
  induction l as [|x l IH]; simpl; [reflexivity|].
  destruct (q x); simpl; [destruct (p x)|]; now rewrite IH.
Qed.

(** C7.  For a user id without a record, the user query answers 404
    "User not found".  For a user id with a record it answers that record,
    the stored transactions of that user and no others, newest first by
    createdAt, and a summary: the number of those transactions, the number
    of them that are completed, the record's totalSpent, and isPremium,
    which is false when the record has none. *)
Theorem get_user_report u l :
  match users l !! u with
  | None =>
      get_user u l =
        {| code := 404; body := ErrorBody "User not found" None None |}
  | Some usr =>
      exists txs,
        get_user u l =
          json (UserOk usr txs
                  {| us_totalTransactions := count_where (owned_by u) (transactions l);
                     us_successfulTransactions :=
                       count_where (fun x => owned_by u x && is_completed x)
                         (transactions l);
                     us_totalSpent := User.totalSpent usr;
                     us_isPremium :=
                       match User.isPremium usr with
                       | Some b => b
                       | None => false
                       end |}) /\
        Permutation txs
          (List.filter (owned_by u) (JsMap.values (transactions l))) /\
        (forall x, In x txs <->
           In x (JsMap.values (transactions l)) /\ Tx.userId x = u) /\
        newest_first_sorted txs
  end.
Proof.
  unfold get_user. destruct (users l !! u) as [usr|]; [|reflexivity].
  eexists. split; [|split; [apply array_sort_perm|split]].
  - unfold json. do 3 f_equal.
    + rewrite (Permutation_length (array_sort_perm _ _)).
      apply (count_where_values (owned_by u)).
    + rewrite count_sorted, filter_filter.
      apply (count_where_values (fun x => owned_by u x && is_completed x)).
  - intros x. rewrite (Permutation_in' eq_refl (array_sort_perm _ _)).
    rewrite filter_In. unfold owned_by. now rewrite String.eqb_eq.
  - apply newest_first_sort_sorted.
Qed.

Lemma list_to_set_distinct (l ids : list string) :
  NoDup ids -> (forall u, In u ids <-> In u l) ->
  size (list_to_set l : gset string) = length ids.
Proof.
  intros Hnd Hin. rewrite <- (size_list_to_set (C := gset string) ids Hnd).
  f_equal. apply set_eq. intros u.
  rewrite !elem_of_list_to_set, !list_elem_of_In. symmetry. apply Hin.
Qed.

(** C8.  The admin report lists every stored transaction, newest first by
    createdAt.  Its summary is the one computed from the store itself:
    totalTransactions is the number of stored transactions,
    completedTransactions and pendingTransactions the numbers of those
    with status completed and pending, totalRevenue the sum of amount over
    those with status completed only, and uniqueUsers the number of
    distinct user ids. *)
Theorem admin_report l :
  exists txs s,
    admin_transactions l = json (AdminOk txs s) /\
    Permutation txs (JsMap.values (transactions l)) /\
    newest_first_sorted txs /\
    totalTransactions s = JsMap.size (transactions l) /\
    completedTransactions s = count_where is_completed (transactions l) /\
    pendingTransactions s = count_where is_pending (transactions l) /\
    totalRevenue s = revenue (transactions l) /\
    (forall ids, distinct_users l ids -> uniqueUsers s = length ids).
Proof.
  unfold admin_transactions. do 2 eexists. split; [reflexivity|]. simpl.
  set (vs := JsMap.values (transactions l)).
  pose proof (array_sort_perm newest_first vs) as Hperm.
  split; [exact Hperm|]. split; [apply newest_first_sort_sorted|].
  split; [rewrite (Permutation_length Hperm); apply length_map|].
  split; [rewrite count_sorted; apply count_where_values|].
  split; [rewrite count_sorted; apply count_where_values|].
  split.
  - rewrite (sum_perm _ _ _ (filter_perm is_completed _ _ Hperm)).
    apply sum_completed_values.
  - intros ids [Hnd Hin]. apply list_to_set_distinct; [exact Hnd|].
    intros u. rewrite Hin, in_map_iff. split.
    + intros (x & Hx & Hu). exists x. split; [exact Hu|].
      now apply (Permutation_in _ (Permutation_sym Hperm)).
    + intros (x & Hu & Hx). exists x. split; [|exact Hu].
      now apply (Permutation_in _ Hperm).
Qed.

Lemma admin_report_witness :
  exists txs s,
    admin_transactions ledger_mixed = json (AdminOk txs s) /\
    map Tx.paymentIntentId txs = ["pi_2"; "pi_1"] /\
    totalTransactions s = 2%nat /\
    completedTransactions s = 1%nat /\
    pendingTransactions s = 1%nat /\
    totalRevenue s = 999 /\
    uniqueUsers s = 2%nat.
Proof.
  destruct (admin_report ledger_mixed)
    as (txs & s & Heq & _ & _ & Ht & Hc & Hp & Hrev & Hu).
  exists txs, s. split; [exact Heq|].
  split; [injection Heq as <- _; reflexivity|].
  split; [exact Ht|]. split; [exact Hc|]. split; [exact Hp|].
  split; [exact Hrev|].
  apply (Hu ["u1"; "u2"]). split.
  - apply NoDup_cons. split; [|apply NoDup_singleton].
    intros H. apply list_elem_of_In in H. destruct H as [H|[]]. discriminate H.
  - intros u.
    change (In u (map Tx.userId (JsMap.values (transactions ledger_mixed))) <->
            exists x, In x (JsMap.values (transactions ledger_mixed)) /\
                      Tx.userId x = u).
    rewrite in_map_iff. split; intros (x & A & B); exists x; auto.
Defined.

(** ** Sanity checks on the reports *)

Example get_user_unknown :
  get_user "u9" ledger_mixed =
  {| code := 404; body := ErrorBody "User not found" None None |}.
Proof. reflexivity. Qed.

Example get_user_known :
  exists usr x,
    get_user "u1" ledger_mixed =
      json (UserOk usr [x]
              {| us_totalTransactions := 1; us_successfulTransactions := 1;
                 us_totalSpent := 999; us_isPremium := true |}) /\
    Tx.paymentIntentId x = "pi_1" /\ User.userId usr = "u1".
Proof. do 2 eexists. split; [vm_compute; reflexivity|]. split; reflexivity. Qed.

Example get_user_not_premium :
  exists usr x,
    get_user "u2" ledger_mixed =
      json (UserOk usr [x]
              {| us_totalTransactions := 1; us_successfulTransactions := 0;
                 us_totalSpent := 0; us_isPremium := false |}) /\
    Tx.paymentIntentId x = "pi_2".
Proof. do 2 eexists. split; [vm_compute; reflexivity|]. reflexivity. Qed.

(** Transactions created at the same millisecond keep the order in which
    they were stored. *)
Example sort_is_stable :
  map Tx.paymentIntentId
    (array_sort newest_first
       (JsMap.values
          (transactions
             (run empty_ledger
                [CreatePayment
                   (gateway (sample_intent "pi_a" "requires_payment_method" 999))
                   (create_at 1000) sample_create;
                 CreatePayment
                   (gateway (sample_intent "pi_b" "requires_payment_method" 999))
                   (create_at 2000) sample_create;
                 CreatePayment
                   (gateway (sample_intent "pi_c" "requires_payment_method" 999))
                   (create_at 1000) sample_create_u2])))) =
  ["pi_b"; "pi_a"; "pi_c"].
Proof. reflexivity. Qed.

(** ** The key of a transaction *)

Lemma has_get {V} k (m : JsMap.t V) :
  JsMap.has k m = true <-> exists v, JsMap.get k m = Some v.
Proof.
  unfold JsMap.has. destruct (JsMap.get k m); split; eauto; try discriminate.
  intros [v Hv]. discriminate Hv.
Qed.

(** Every transaction is stored once, under its own payment intent id. *)
Lemma step_keys l op :
  JsMap.wf (transactions l) /\
  (forall k x, JsMap.get k (transactions l) = Some x -> Tx.paymentIntentId x = k) ->
  JsMap.wf (transactions (step l op)) /\
  (forall k x, JsMap.get k (transactions (step l op)) = Some x ->
     Tx.paymentIntentId x = k).
Proof.
  intros [Hwf Hkey]. unfold step.
  destruct op as [g now req|g now req]; simpl.
  - destruct (create_cases g now req l)
      as [(e & n & u & intent & He & Hn & Hu & Hre & _ & ->)|(_ & _ & ->)];
      [|auto].
    rewrite (create_succeeded (gateway intent) now req l e n u intent
               He Hn Hu Hre (fun _ _ => eq_refl)). simpl.
    split; [now apply wf_set|].
    intros k x. rewrite get_set.
    destruct (String.eqb (Stripe.Intent.id intent) k) eqn:E; [|apply Hkey].
    apply String.eqb_eq in E. now intros [= <-].
  - destruct (confirm_cases g now req l)
      as [->|(pid & uid & intent & Hp & Hu & Hg & Hs)]; [auto|].
    rewrite (confirm_succeeded _ _ _ _ _ _ _ Hp Hu Hg Hs). simpl.
    destruct (JsMap.get pid (transactions l)) as [x0|] eqn:Hx0; [|auto].
    split; [now apply wf_set|].
    intros k x. rewrite get_set.
    destruct (String.eqb pid k) eqn:E; [|apply Hkey].
    apply String.eqb_eq in E. subst k. intros [= <-]. simpl. now apply Hkey.
Qed.

Lemma reachable_keys l :
  reachable l ->
  JsMap.wf (transactions l) /\
  (forall k x, JsMap.get k (transactions l) = Some x -> Tx.paymentIntentId x = k).
Proof.
  induction 1 as [|l op _ IH _].
  - split; [apply NoDup_nil_2 | intros k x; discriminate].
  - now apply step_keys.
Qed.

(** * Further properties of the handlers *)

(** ** The shape of one request *)

Lemma create_shape g now req l :
  (code (fst (create_payment g now req l)) = 400 /\
   snd (create_payment g now req l) = l) \/
  exists e n u intent,
    truthy (CreateBody.userEmail req) = Some e /\
    truthy (CreateBody.userName req) = Some n /\
    truthy (CreateBody.userId req) = Some u /\
    emailRegex_test e = true /\
    g (create_params now req e n u) = inr intent /\
    create_payment g now req l =
      (json (CreatePaymentOk (Stripe.Intent.client_secret intent)
               (Stripe.Intent.id intent) 999 "usd" u n e
               (Stripe.Intent.description intent) e (respondedNow now)),
       {| transactions :=
            JsMap.set (Stripe.Intent.id intent)
              (created_transaction now req e n u (Stripe.Intent.id intent))
              (transactions l);
          users := upsert_user now e n u (users l) |}).
Proof.
  unfold create_payment.
  destruct (truthy (CreateBody.userEmail req)) as [e|]; [|now left].
  destruct (truthy (CreateBody.userName req)) as [n|]; [|now left].
  destruct (truthy (CreateBody.userId req)) as [u|]; [|now left].
  destruct (emailRegex_test e) eqn:Hre; simpl; [|now left].
  fold (create_params now req e n u).
  destruct (g (create_params now req e n u)) as [err|intent] eqn:Hg; [now left|].
  right. exists e, n, u, intent. auto 10.
Qed.

Lemma confirm_shape g now req l :
  snd (confirm_payment g now req l) = l \/
  exists pid uid intent,
    truthy (ConfirmBody.paymentIntentId req) = Some pid /\
    truthy (ConfirmBody.userId req) = Some uid /\
    g pid = inr intent /\
    Stripe.Intent.status intent = "succeeded" /\
    confirm_payment g now req l =
      (json (ConfirmPaymentOk true "Payment confirmed successfully" pid
               (Stripe.Intent.amount intent) (Stripe.Intent.status intent)),
       {| transactions := complete_transaction now pid (transactions l);
          users := credit_user now uid (Stripe.Intent.amount intent) (users l) |}).
Proof.
  destruct (confirm_cases g now req l)
    as [H|(pid & uid & intent & Hp & Hu & Hg & Hs)]; [now left|].
  right. exists pid, uid, intent. repeat (split; [assumption|]).
  exact (confirm_succeeded _ _ _ _ _ _ _ Hp Hu Hg Hs).
Qed.

(** A request leaves the ledger as it is, or stores a new pending
    transaction and upserts its user, or completes a transaction and
    credits a user. *)
Lemma step_cases l op :
  step l op = l \/
  (exists now req e n u pid,
     u <> "" /\
     step l op =
       {| transactions :=
            JsMap.set pid (created_transaction now req e n u pid) (transactions l);
          users := upsert_user now e n u (users l) |}) \/
  (exists now pid uid paid,
     step l op =
       {| transactions := complete_transaction now pid (transactions l);
          users := credit_user now uid paid (users l) |}).
Proof.
  unfold step. destruct op as [g now req|g now req]; simpl.
  - destruct (create_shape g now req l)
      as [[_ H]|(e & n & u & intent & _ & _ & Hu & _ & _ & ->)]; [now left|].
    right. left. exists now, req, e, n, u, (Stripe.Intent.id intent).
    split; [|reflexivity]. apply truthy_Some in Hu. tauto.
  - destruct (confirm_shape g now req l)
      as [H|(pid & uid & intent & _ & _ & _ & _ & ->)]; [now left|].
    right. right. exists now, pid, uid, (Stripe.Intent.amount intent). reflexivity.
Qed.

Lemma run_app l ops ops' : run l (ops ++ ops') = run (run l ops) ops'.
Proof. unfold run. apply fold_left_app. Qed.

(** A property of the empty ledger that every request keeps holds after
    every sequence of requests. *)
Lemma run_invariant (P : Ledger -> Prop) :
  P empty_ledger ->
  (forall l op, P l -> P (step l op)) ->
  forall ops, P (run empty_ledger ops).
Proof.
  intros H0 Hstep ops. revert H0. generalize empty_ledger.
  induction ops as [|op ops IH]; intros l Hl; simpl; [exact Hl|].
  apply IH, Hstep, Hl.
Qed.

Lemma reachable_run l : reachable l -> exists ops, l = run empty_ledger ops.
Proof.
  induction 1 as [|l op _ [ops ->] _].
  - now exists [].
  - exists (ops ++ [op])%list. now rewrite run_app.
Qed.

(** ** Errors of confirm-payment and create-payment *)

(** X1.  Without a payment intent id or without a user id (absent or
    empty), confirm-payment answers 400 "Missing paymentIntentId or
    userId", whatever the gateway would say, and leaves the ledger as it
    is. *)
Theorem confirm_missing_parameters g now req l :
  truthy (ConfirmBody.paymentIntentId req) = None \/
  truthy (ConfirmBody.userId req) = None ->
  confirm_payment g now req l =
  ({| code := 400;
      body := ErrorBody "Missing paymentIntentId or userId" None None |}, l).
Proof.
  unfold confirm_payment. intros [H|H]; rewrite H; [reflexivity|].
  now destruct (truthy (ConfirmBody.paymentIntentId req)).
Qed.

Lemma confirm_missing_parameters_witness :
  confirm_payment (gateway (sample_intent "pi_1" "succeeded" 999))
    (confirm_at 2000)
    {| ConfirmBody.paymentIntentId := Some "pi_1"; ConfirmBody.userId := Some "" |}
    ledger_created =
  ({| code := 400;
      body := ErrorBody "Missing paymentIntentId or userId" None None |},
   ledger_created).
Proof.
  apply confirm_missing_parameters. right. reflexivity.
Defined.

(** X2.  When the gateway call of confirm-payment throws, the answer is 500
    with the gateway's message and the type payment_confirmation_error,
    and the ledger is left as it is. *)
Theorem confirm_gateway_error g now req l pid uid err :
  truthy (ConfirmBody.paymentIntentId req) = Some pid ->
  truthy (ConfirmBody.userId req) = Some uid ->
  g pid = inl err ->
  confirm_payment g now req l =
  ({| code := 500;
      body := ErrorBody (Stripe.Error.message err)
                (Some "payment_confirmation_error") None |}, l).
Proof.
  intros Hp Hu Hg. unfold confirm_payment. now rewrite Hp, Hu, Hg.
Qed.

Lemma confirm_gateway_error_witness :
  confirm_payment
    (fun _ => inl {| Stripe.Error.message := "No such payment_intent";
                     Stripe.Error.type := Some "invalid_request_error" |})
    (confirm_at 2000) (sample_confirm "pi_7" "u1") ledger_created =
  ({| code := 500;
      body := ErrorBody "No such payment_intent"
                (Some "payment_confirmation_error") None |}, ledger_created).
Proof.
  apply (confirm_gateway_error _ _ _ _ "pi_7" "u1"
           {| Stripe.Error.message := "No such payment_intent";
              Stripe.Error.type := Some "invalid_request_error" |});
    reflexivity.
Defined.

(** X3.  When the gateway call of create-payment throws, the answer is 400
    with the gateway's message and the error's type, or
    payment_creation_error when the error has none; nothing is stored. *)
Theorem create_gateway_error g now req l e n u err :
  truthy (CreateBody.userEmail req) = Some e ->
  truthy (CreateBody.userName req) = Some n ->
  truthy (CreateBody.userId req) = Some u ->
  emailRegex_test e = true ->
  g (create_params now req e n u) = inl err ->
  create_payment g now req l =
  ({| code := 400;
      body := ErrorBody (Stripe.Error.message err)
                (Some (match truthy (Stripe.Error.type err) with
                       | Some ty => ty
                       | None => "payment_creation_error"
                       end)) None |}, l).
Proof.
  intros He Hn Hu Hre Hg. unfold create_payment.
  rewrite He, Hn, Hu, Hre. simpl. fold (create_params now req e n u).
  now rewrite Hg.
Qed.

Lemma create_gateway_error_witness :
  create_payment
    (fun _ => inl {| Stripe.Error.message := "Invalid API Key provided";
                     Stripe.Error.type := None |})
    (create_at 1000) sample_create empty_ledger =
  ({| code := 400;
      body := ErrorBody "Invalid API Key provided"
                (Some "payment_creation_error") None |}, empty_ledger).
Proof.
  apply (create_gateway_error _ _ _ _ "a@b.com" "A" "u1"
           {| Stripe.Error.message := "Invalid API Key provided";
              Stripe.Error.type := None |});
    reflexivity.
Defined.

(** ** The four updates *)

Section UpdateFacts.
Implicit Types (m : JsMap.t Tx.t) (us : gmap string User.t).

Lemma values_set_Forall (P : Tx.t -> Prop) m k v :
  Forall P (JsMap.values m) -> P v -> Forall P (JsMap.values (JsMap.set k v m)).
Proof.
  intros Hm Hv. induction m as [|[k' v'] m IH]; simpl.
  - constructor; [exact Hv | constructor].
  - inversion Hm; subst.
    destruct (String.eqb k' k); simpl; constructor; auto.
Qed.

Lemma values_complete_Forall (P : Tx.t -> Prop) now pid m :
  (forall x, P x -> P (Tx.complete (completedNow now) x)) ->
  Forall P (JsMap.values m) ->
  Forall P (JsMap.values (complete_transaction now pid m)).
Proof.
  intros HP Hm. unfold complete_transaction.
  destruct (JsMap.get pid m) as [x|] eqn:Hx; [|exact Hm].
  apply values_set_Forall; [exact Hm|]. apply HP.
  apply get_Some_In in Hx. rewrite Forall_forall in Hm.
  apply Hm, list_elem_of_In, Hx.
Qed.

Lemma size_set_present {V} (m : JsMap.t V) k v v0 :
  JsMap.get k m = Some v0 -> JsMap.size (JsMap.set k v m) = JsMap.size m.
Proof.
  unfold JsMap.size. induction m as [|[k' v'] m IH]; simpl; [discriminate|].
  destruct (String.eqb k' k); simpl; [reflexivity|].
  intros H. now rewrite IH.
Qed.

Lemma size_set {V} (m : JsMap.t V) k v :
  JsMap.size (JsMap.set k v m) =
  match JsMap.get k m with
  | Some _ => JsMap.size m
  | None => S (JsMap.size m)
  end.
Proof.
  destruct (JsMap.get k m) as [v0|] eqn:E.
  - now apply size_set_present with v0.
  - rewrite (set_fresh _ _ _ E). unfold JsMap.size.
    rewrite length_app. simpl. lia.
Qed.

Lemma size_complete now pid m :
  JsMap.size (complete_transaction now pid m) = JsMap.size m.
Proof.
  unfold complete_transaction.
  destruct (JsMap.get pid m) as [x|] eqn:E; [|reflexivity].
  now apply size_set_present with x.
Qed.

Lemma get_complete now pid m k :
  JsMap.get k (complete_transaction now pid m) =
  if String.eqb pid k then Tx.complete (completedNow now) <$> JsMap.get k m
  else JsMap.get k m.
Proof.
  unfold complete_transaction.
  destruct (String.eqb pid k) eqn:E.
  - apply String.eqb_eq in E. subst k.
    destruct (JsMap.get pid m) as [x|] eqn:Hx; simpl.
    + apply get_set_eq.
    + exact Hx.
  - destruct (JsMap.get pid m) as [x|]; [|reflexivity].
    rewrite get_set. now rewrite E.
Qed.

Lemma lookup_upsert now e n u us k :
  upsert_user now e n u us !! k =
  if decide (u = k)
  then Some match us !! u with
            | Some usr => User.attempt (attemptNow now) usr
            | None => created_user now e n u
            end
  else us !! k.
Proof.
  unfold upsert_user. destruct (decide (u = k)) as [<-|Hne].
  - destruct (us !! u); apply lookup_insert_eq.
  - destruct (us !! u); now apply lookup_insert_ne.
Qed.

Lemma lookup_credit now uid paid us k :
  credit_user now uid paid us !! k =
  if decide (uid = k) then User.purchase (purchasedNow now) paid <$> us !! k
  else us !! k.
Proof.
  unfold credit_user. destruct (decide (uid = k)) as [<-|Hne].
  - destruct (us !! uid) as [usr|] eqn:E; simpl.
    + apply lookup_insert_eq.
    + exact E.
  - destruct (us !! uid); [now apply lookup_insert_ne | reflexivity].
Qed.

Lemma size_upsert now e n u us :
  size (upsert_user now e n u us) =
  match us !! u with Some _ => size us | None => S (size us) end.
Proof.
  unfold upsert_user. destruct (us !! u) as [usr|] eqn:E.
  - apply map_size_insert_Some. eauto.
  - now apply map_size_insert_None.
Qed.

Lemma size_credit now uid paid us : size (credit_user now uid paid us) = size us.
Proof.
  unfold credit_user. destruct (us !! uid) as [usr|] eqn:E; [|reflexivity].
  apply map_size_insert_Some. eauto.
Qed.
End UpdateFacts.

(** ** What the ledger keeps *)

(** X4.  No request removes a record: a transaction or a user that is
    stored before a request is stored after it, and a request adds at most
    one transaction and at most one user. *)
Theorem step_keeps_records l op :
  (forall k, is_Some (JsMap.get k (transactions l)) ->
             is_Some (JsMap.get k (transactions (step l op)))) /\
  (forall u, is_Some (users l !! u) -> is_Some (users (step l op) !! u)) /\
  (JsMap.size (transactions l) <= JsMap.size (transactions (step l op))
     <= S (JsMap.size (transactions l)))%nat /\
  (size (users l) <= size (users (step l op)) <= S (size (users l)))%nat.
Proof.
  destruct (step_cases l op)
    as [->|[(now & req & e & n & u & pid & _ & ->)|(now & pid & uid & paid & ->)]];
    simpl.
  - repeat split; auto; lia.
  - split; [|split; [|split]].
    + intros k Hk. rewrite get_set. destruct (String.eqb pid k); eauto.
    + intros k Hk. rewrite lookup_upsert. destruct (decide (u = k)); eauto.
    + rewrite size_set. destruct (JsMap.get pid (transactions l)); lia.
    + rewrite size_upsert. destruct (users l !! u); lia.
  - split; [|split; [|split]].
    + intros k [x Hk]. rewrite get_complete, Hk.
      destruct (String.eqb pid k); simpl; eauto.
    + intros k [x Hk]. rewrite lookup_credit, Hk.
      destruct (decide (uid = k)); simpl; eauto.
    + rewrite size_complete. lia.
    + rewrite size_credit. lia.
Qed.

Lemma step_user_keys l op :
  (forall k usr, users l !! k = Some usr -> User.userId usr = k) ->
  forall k usr, users (step l op) !! k = Some usr -> User.userId usr = k.
Proof.
  intros Hl k usr.
  destruct (step_cases l op)
    as [->|[(now & req & e & n & u & pid & _ & ->)|(now & pid & uid & paid & ->)]];
    simpl.
  - apply Hl.
  - rewrite lookup_upsert. destruct (decide (u = k)) as [<-|]; [|apply Hl].
    intros [= <-]. destruct (users l !! u) as [usr0|] eqn:E; [|reflexivity].
    simpl. now apply Hl.
  - rewrite lookup_credit. destruct (decide (uid = k)) as [<-|]; [|apply Hl].
    destruct (users l !! uid) as [usr0|] eqn:E; [|discriminate].
    intros [= <-]. simpl. now apply Hl.
Qed.

(** X5.  After any sequence of requests from the empty ledger, every
    transaction is stored under its own paymentIntentId, every user under
    their own userId, and no key of the transactions occurs twice. *)
Theorem run_keys ops :
  JsMap.wf (transactions (run empty_ledger ops)) /\
  (forall k x, JsMap.get k (transactions (run empty_ledger ops)) = Some x ->
     Tx.paymentIntentId x = k) /\
  (forall k usr, users (run empty_ledger ops) !! k = Some usr ->
     User.userId usr = k).
Proof.
  apply (run_invariant (fun l =>
    JsMap.wf (transactions l) /\
    (forall k x, JsMap.get k (transactions l) = Some x -> Tx.paymentIntentId x = k) /\
    (forall k usr, users l !! k = Some usr -> User.userId usr = k))).
  - split; [apply NoDup_nil_2|]. split; [intros k x; discriminate|].
    intros k usr. simpl. rewrite lookup_empty. discriminate.
  - intros l op (Hwf & Ht & Hu).
    destruct (step_keys l op (conj Hwf Ht)) as [Hwf' Ht'].
    split; [exact Hwf'|]. split; [exact Ht'|]. now apply step_user_keys.
Qed.

Lemma step_keeps_users l op u :
  is_Some (users l !! u) -> is_Some (users (step l op) !! u).
Proof.
  intros [usr Hu].
  destruct (step_cases l op)
    as [->|[(now & req & e & n & u0 & pid & _ & ->)|(now & pid & uid & paid & ->)]];
    simpl.
  - eauto.
  - rewrite lookup_upsert, Hu. destruct (decide (u0 = u)); eauto.
  - rewrite lookup_credit, Hu. destruct (decide (uid = u)); simpl; eauto.
Qed.

Lemma run_users_of_transactions ops :
  Forall (fun x => is_Some (users (run empty_ledger ops) !! Tx.userId x))
    (JsMap.values (transactions (run empty_ledger ops))).
Proof.
  apply (run_invariant (fun l =>
    Forall (fun x => is_Some (users l !! Tx.userId x))
      (JsMap.values (transactions l)))).
  - constructor.
  - intros l op Hl.
    assert (Hkeep : Forall (fun x => is_Some (users (step l op) !! Tx.userId x))
                      (JsMap.values (transactions l))).
    { eapply Forall_impl; [exact Hl|]. intros x. apply step_keeps_users. }
    revert Hkeep.
    destruct (step_cases l op)
      as [->|[(now & req & e & n & u & pid & _ & ->)|(now & pid & uid & paid & ->)]];
      simpl; intros Hkeep.
    + exact Hkeep.
    + apply values_set_Forall; [exact Hkeep|]. simpl.
      rewrite lookup_upsert. destruct (decide (u = u)); [eauto | congruence].
    + apply values_complete_Forall; [|exact Hkeep]. auto.
Qed.

Lemma run_user_keys ops k usr :
  users (run empty_ledger ops) !! k = Some usr -> User.userId usr = k.
Proof.
  revert k usr.
  apply (run_invariant (fun l =>
    forall k usr, users l !! k = Some usr -> User.userId usr = k)).
  - intros k usr. simpl. rewrite lookup_empty. discriminate.
  - intros l op. apply step_user_keys.
Qed.

(** X6.  After any sequence of requests from the empty ledger, the user of
    every stored transaction has a record, and that record carries the
    transaction's userId. *)
Theorem run_transactions_have_users ops x :
  In x (JsMap.values (transactions (run empty_ledger ops))) ->
  exists usr,
    users (run empty_ledger ops) !! Tx.userId x = Some usr /\
    User.userId usr = Tx.userId x.
Proof.
  intros Hx. pose proof (run_users_of_transactions ops) as H.
  rewrite Forall_forall in H.
  destruct (H x) as [usr Husr]; [now apply list_elem_of_In|].
  exists usr. split; [exact Husr|]. now apply (run_user_keys ops).
Qed.

Lemma run_transactions_have_users_witness :
  exists usr,
    users ledger_mixed !! "u2" = Some usr /\ User.userId usr = "u2".
Proof.
  exact (run_transactions_have_users
           [CreatePayment
              (gateway (sample_intent "pi_1" "requires_payment_method" 999))
              (create_at 1000) sample_create;
            CreatePayment
              (gateway (sample_intent "pi_2" "requires_payment_method" 999))
              (create_at 1500) sample_create_u2;
            ConfirmPayment (gateway (sample_intent "pi_1" "succeeded" 999))
              (confirm_at 2000) (sample_confirm "pi_1" "u1")]
           (created_transaction (create_at 1500) sample_create_u2
              "c@d.org" "B" "u2" "pi_2")
           (or_intror (or_introl eq_refl))).
Defined.

Lemma run_tx_ok ops :
  Forall tx_ok (JsMap.values (transactions (run empty_ledger ops))).
Proof.
  apply (run_invariant (fun l => Forall tx_ok (JsMap.values (transactions l)))).
  - constructor.
  - intros l op Hl.
    destruct (step_cases l op)
      as [->|[(now & req & e & n & u & pid & _ & ->)|(now & pid & uid & paid & ->)]];
      simpl.
    + exact Hl.
    + apply values_set_Forall; [exact Hl|].
      unfold tx_ok. simpl. auto.
    + apply values_complete_Forall; [|exact Hl].
      intros x (Ha & Hc & _). unfold tx_ok. simpl. eauto 6.
Qed.

Lemma revenue_fixed_price m :
  Forall tx_ok (JsMap.values m) ->
  revenue m = 999 * Z.of_nat (count_where is_completed m).
Proof.
  induction m as [|[k x] m IH]; simpl; [reflexivity|].
  intros H. inversion H as [|? ? (Ha & _) Hm]; subst.
  rewrite (IH Hm). unfold is_completed.
  destruct (String.eqb (Tx.status x) "completed"); lia.
Qed.

Lemma count_partition m :
  Forall tx_ok (JsMap.values m) ->
  (count_where is_completed m + count_where is_pending m = JsMap.size m)%nat.
Proof.
  unfold JsMap.size.
  induction m as [|[k x] m IH]; simpl; [reflexivity|].
  intros H. inversion H as [|? ? (_ & _ & Hs) Hm]; subst.
  specialize (IH Hm). unfold is_completed, is_pending in *.
  destruct Hs as [[-> _]|[-> _]]; simpl; lia.
Qed.

(** X7.  After any sequence of requests from the empty ledger, every
    transaction of the admin report has amount 999 in usd, and a
    completedAt exactly when its status is completed; the report's
    totalRevenue is 999 times its completedTransactions, and its
    completedTransactions and pendingTransactions add up to its
    totalTransactions. *)
Theorem admin_report_fixed_price ops :
  exists txs s,
    admin_transactions (run empty_ledger ops) = json (AdminOk txs s) /\
    Forall tx_ok txs /\
    totalRevenue s = 999 * Z.of_nat (completedTransactions s) /\
    (completedTransactions s + pendingTransactions s = totalTransactions s)%nat.
Proof.
  pose proof (run_tx_ok ops) as Hok.
  set (l := run empty_ledger ops) in *.
  unfold admin_transactions. do 2 eexists. split; [reflexivity|]. simpl.
  pose proof (array_sort_perm newest_first (JsMap.values (transactions l))) as Hperm.
  split; [|split].
  - rewrite Forall_forall in Hok |- *. intros x Hx. apply Hok.
    apply list_elem_of_In. apply list_elem_of_In in Hx.
    now apply (Permutation_in _ Hperm).
  - rewrite (sum_perm _ _ _ (filter_perm is_completed _ _ Hperm)).
    rewrite sum_completed_values, count_sorted.
    rewrite (count_where_values is_completed).
    rewrite (revenue_fixed_price _ Hok). lia.
  - rewrite !count_sorted, (Permutation_length Hperm).
    rewrite (count_where_values is_completed), (count_where_values is_pending).
    rewrite (count_partition _ Hok). unfold JsMap.size, JsMap.values.
    now rewrite length_map.
Qed.

(** ** User records over time *)

Lemma attempt_user_ok now usr : user_ok usr -> user_ok (User.attempt now usr).
Proof.
  intros [Ha Hp]. split; [|exact Hp].
  rewrite attempt_totalAttempts. lia.
Qed.

Lemma purchase_user_ok now paid usr : user_ok usr -> user_ok (User.purchase now paid usr).
Proof.
  intros [Ha Hp]. split; [exact Ha|]. right. simpl.
  split; [reflexivity|]. split; [eauto|].
  destruct Hp as [(_ & _ & -> & _)|(_ & _ & H)]; lia.
Qed.

Lemma run_user_ok ops u usr :
  users (run empty_ledger ops) !! u = Some usr -> user_ok usr.
Proof.
  revert u usr.
  apply (run_invariant (fun l => forall u usr, users l !! u = Some usr -> user_ok usr)).
  - intros u usr. simpl. rewrite lookup_empty. discriminate.
  - intros l op Hl u usr.
    destruct (step_cases l op)
      as [->|[(now & req & e & n & u0 & pid & _ & ->)|(now & pid & uid & paid & ->)]];
      simpl.
    + apply Hl.
    + rewrite lookup_upsert. destruct (decide (u0 = u)) as [<-|]; [|apply Hl].
      intros [= <-]. destruct (users l !! u0) as [usr0|] eqn:E.
      * apply attempt_user_ok. now apply (Hl u0).
      * unfold user_ok, created_user. simpl. split; [lia|]. left. auto.
    + rewrite lookup_credit. destruct (decide (uid = u)) as [<-|]; [|apply Hl].
      destruct (users l !! uid) as [usr0|] eqn:E; [|discriminate].
      intros [= <-]. apply purchase_user_ok. now apply (Hl uid).
Qed.

(** X8.  After any sequence of requests from the empty ledger, the user
    query answers either 404 or a record that has made at least one
    attempt and is in one of two states: no purchase (no premium flag, no
    last purchase time, nothing spent), or at least one purchase with the
    premium flag set.  So the summary's isPremium is true exactly when
    successfulPurchases is at least 1. *)
Theorem get_user_premium ops u :
  match body (get_user u (run empty_ledger ops)) with
  | UserOk usr _ s =>
      users (run empty_ledger ops) !! u = Some usr /\
      user_ok usr /\
      (us_isPremium s = true <-> 1 <= User.successfulPurchases usr)
  | ErrorBody _ _ _ =>
      users (run empty_ledger ops) !! u = None /\
      code (get_user u (run empty_ledger ops)) = 404
  | _ => False
  end.
Proof.
  unfold get_user.
  destruct (users (run empty_ledger ops) !! u) as [usr|] eqn:E; simpl; [|auto].
  pose proof (run_user_ok ops u usr E) as Hok.
  split; [reflexivity|]. split; [exact Hok|].
  destruct Hok as [_ [(-> & _ & -> & _)|(-> & _ & H)]]; simpl.
  - split; [discriminate | lia].
  - tauto.
Qed.

(** X9.  Whatever the request, a user record that exists keeps its userId,
    userName, userEmail and firstSeen; totalAttempts and
    successfulPurchases do not go down; a premium flag that is set stays
    set. *)
Theorem step_user_monotone l op u usr :
  users l !! u = Some usr ->
  exists usr',
    users (step l op) !! u = Some usr' /\
    User.userId usr' = User.userId usr /\
    User.userName usr' = User.userName usr /\
    User.userEmail usr' = User.userEmail usr /\
    User.firstSeen usr' = User.firstSeen usr /\
    User.totalAttempts usr <= User.totalAttempts usr' /\
    User.successfulPurchases usr <= User.successfulPurchases usr' /\
    (User.isPremium usr = Some true -> User.isPremium usr' = Some true).
Proof.
  intros Hu.
  destruct (step_cases l op)
    as [->|[(now & req & e & n & u0 & pid & _ & ->)|(now & pid & uid & paid & ->)]];
    simpl.
  - exists usr. repeat split; auto; lia.
  - rewrite lookup_upsert. destruct (decide (u0 = u)) as [->|].
    + rewrite Hu. eexists. split; [reflexivity|].
      rewrite attempt_totalAttempts. simpl. repeat split; auto; lia.
    + exists usr. repeat split; auto; lia.
  - rewrite lookup_credit. destruct (decide (uid = u)) as [->|].
    + rewrite Hu. eexists. split; [reflexivity|]. simpl.
      repeat split; auto; lia.
    + exists usr. repeat split; auto; lia.
Qed.

Lemma step_user_monotone_witness :
  exists usr',
    users ledger_confirmed_twice !! "u1" = Some usr' /\
    User.firstSeen usr' = 1000 /\
    User.isPremium usr' = Some true.
Proof.
  destruct (step_user_monotone ledger_confirmed
              (ConfirmPayment (gateway (sample_intent "pi_1" "succeeded" 999))
                 (confirm_at 3000) (sample_confirm "pi_1" "u1"))
              "u1"
              (User.purchase 2000 999 (created_user (create_at 1000) "a@b.com" "A" "u1"))
              eq_refl)
    as (usr' & Hl & _ & _ & _ & Hf & _ & _ & Hp).
  exists usr'. split; [exact Hl|]. split; [exact Hf | apply Hp; reflexivity].
Defined.

(** ** Transactions over time *)

(** X10.  A request whose new intent identifier, if any, is not yet stored
    leaves every stored transaction with its paymentIntentId, user, amount,
    currency, createdAt, device information, app version and purchase
    type; the transaction is either unchanged or completed with a
    completion time. *)
Theorem step_transaction_fields l op k x :
  issues_fresh_id op l ->
  JsMap.get k (transactions l) = Some x ->
  exists x',
    JsMap.get k (transactions (step l op)) = Some x' /\
    Tx.paymentIntentId x' = Tx.paymentIntentId x /\
    Tx.userId x' = Tx.userId x /\
    Tx.userName x' = Tx.userName x /\
    Tx.userEmail x' = Tx.userEmail x /\
    Tx.amount x' = Tx.amount x /\
    Tx.currency x' = Tx.currency x /\
    Tx.createdAt x' = Tx.createdAt x /\
    Tx.deviceInfo x' = Tx.deviceInfo x /\
    Tx.appVersion x' = Tx.appVersion x /\
    Tx.purchaseType x' = Tx.purchaseType x /\
    (x' = x \/
     (Tx.status x' = "completed" /\ is_Some (Tx.completedAt x'))).
Proof.
  intros Hfresh Hx. unfold step.
  destruct op as [g now req|g now req]; simpl in *.
  - destruct (create_shape g now req l)
      as [[_ ->]|(e & n & u & intent & _ & _ & _ & _ & _ & Heq)].
    + exists x. auto 15.
    + rewrite Heq in Hfresh |- *. simpl in *.
      rewrite get_set_ne by (intros E; congruence).
      exists x. auto 15.
  - destruct (confirm_shape g now req l)
      as [->|(pid & uid & intent & _ & _ & _ & _ & ->)].
    + exists x. auto 15.
    + simpl. rewrite get_complete, Hx.
      destruct (String.eqb pid k); simpl.
      * eexists. split; [reflexivity|]. simpl. eauto 15.
      * exists x. auto 15.
Qed.

Lemma step_transaction_fields_witness :
  exists x',
    JsMap.get "pi_1" (transactions ledger_confirmed) = Some x' /\
    Tx.userId x' = "u1" /\ Tx.amount x' = 999 /\ Tx.createdAt x' = 1000.
Proof.
  destruct (step_transaction_fields ledger_created
              (ConfirmPayment (gateway (sample_intent "pi_1" "succeeded" 999))
                 (confirm_at 2000) (sample_confirm "pi_1" "u1"))
              "pi_1" (created_transaction (create_at 1000) sample_create
                        "a@b.com" "A" "u1" "pi_1")
              I eq_refl)
    as (x' & Hx' & _ & Hu & _ & _ & Ha & _ & Hc & _).
  exists x'. auto.
Defined.

(** ** Attempts and transactions *)

Lemma count_where_app p (m m' : JsMap.t Tx.t) :
  count_where p (m ++ m')%list = (count_where p m + count_where p m')%nat.
Proof.
  induction m as [|[k x] m IH]; simpl; [reflexivity|]. rewrite IH. lia.
Qed.

Lemma count_where_set_present p (m : JsMap.t Tx.t) k v v0 :
  JsMap.get k m = Some v0 -> p v = p v0 ->
  count_where p (JsMap.set k v m) = count_where p m.
Proof.
  intros Hg Hp. induction m as [|[k' v'] m IH]; simpl in *; [discriminate|].
  destruct (String.eqb k' k); simpl.
  - injection Hg as ->. now rewrite Hp.
  - now rewrite IH.
Qed.

Lemma count_where_complete u now pid (m : JsMap.t Tx.t) :
  count_where (owned_by u) (complete_transaction now pid m) =
  count_where (owned_by u) m.
Proof.
  unfold complete_transaction.
  destruct (JsMap.get pid m) as [x|] eqn:E; [|reflexivity].
  now apply count_where_set_present with x.
Qed.

Lemma reachable_attempts l :
  reachable l ->
  forall u, attempts l u = Z.of_nat (count_where (owned_by u) (transactions l)).
Proof.
  induction 1 as [|l op _ IH Hfresh]; intros u'.
  - unfold attempts. simpl. now rewrite lookup_empty.
  - specialize (IH u'). unfold step, attempts in *.
    destruct op as [g now req|g now req]; simpl in *.
    + destruct (create_shape g now req l)
        as [[_ ->]|(e & n & u & intent & _ & _ & _ & _ & _ & Heq)]; [exact IH|].
      rewrite Heq in Hfresh |- *. simpl in *.
      rewrite (set_fresh _ _ _ Hfresh), count_where_app, lookup_upsert. simpl.
      unfold owned_by at 2. simpl.
      destruct (decide (u = u')) as [<-|Hne].
      * rewrite String.eqb_refl.
        destruct (users l !! u) as [usr|].
        -- rewrite attempt_totalAttempts. lia.
        -- simpl. lia.
      * apply String.eqb_neq in Hne. rewrite Hne. lia.
    + destruct (confirm_shape g now req l)
        as [->|(pid & uid & intent & _ & _ & _ & _ & ->)]; [exact IH|].
      simpl. rewrite count_where_complete, lookup_credit.
      destruct (decide (uid = u')) as [<-|]; [|exact IH].
      now destruct (users l !! uid).
Qed.

(** X11.  In a ledger reached with every intent named afresh by the
    gateway, the user query reports as many transactions as the record's
    totalAttempts; a user without a record has no transaction. *)
Theorem get_user_attempts l u :
  reachable l ->
  match body (get_user u l) with
  | UserOk usr _ s => Z.of_nat (us_totalTransactions s) = User.totalAttempts usr
  | _ => count_where (owned_by u) (transactions l) = 0%nat
  end.
Proof.
  intros Hr. pose proof (reachable_attempts l Hr u) as H.
  unfold get_user, attempts in *.
  destruct (users l !! u) as [usr|]; simpl; [|lia].
  rewrite (Permutation_length (array_sort_perm _ _)).
  rewrite (count_where_values (owned_by u)). now rewrite H.
Qed.

Lemma get_user_attempts_witness :
  match body (get_user "u1" ledger_confirmed) with
  | UserOk usr _ s => Z.of_nat (us_totalTransactions s) = User.totalAttempts usr
  | _ => False
  end.
Proof.
  assert (Hr : reachable ledger_confirmed).
  { unfold ledger_confirmed, ledger_created.
    apply reachable_step; [apply reachable_step; [apply reachable_empty|]|];
      vm_compute; auto. }
  exact (get_user_attempts ledger_confirmed "u1" Hr).
Defined.

(** ** Purchases *)

Lemma step_purchases l op u :
  from_option User.successfulPurchases 0 (users (step l op) !! u) =
    from_option User.successfulPurchases 0 (users l !! u)
    + match credited u op l with Some _ => 1 | None => 0 end /\
  from_option User.totalSpent 0 (users (step l op) !! u) =
    from_option User.totalSpent 0 (users l !! u)
    + match credited u op l with Some paid => paid | None => 0 end.
Proof.
  unfold step. destruct op as [g now req|g now req]; simpl.
  - destruct (create_shape g now req l)
      as [[_ ->]|(e & n & u0 & intent & _ & _ & _ & _ & _ & ->)];
      [split; lia|].
    simpl. rewrite lookup_upsert.
    destruct (decide (u0 = u)) as [<-|]; [|split; lia].
    destruct (users l !! u0); simpl; split; lia.
  - unfold confirm_payment.
    destruct (truthy (ConfirmBody.paymentIntentId req)) as [pid|];
      [|simpl; split; lia].
    destruct (truthy (ConfirmBody.userId req)) as [uid|];
      [|simpl; split; lia].
    destruct (g pid) as [err|intent]; [simpl; split; lia|].
    destruct (String.eqb (Stripe.Intent.status intent) "succeeded");
      [|simpl; split; lia].
    simpl. fold (credit_user now uid (Stripe.Intent.amount intent) (users l)).
    rewrite lookup_credit.
    destruct (decide (uid = u)) as [->|Hne].
    + rewrite bool_decide_eq_true_2 by reflexivity.
      destruct (users l !! u) as [usr|] eqn:E; simpl.
      * rewrite ?bool_decide_eq_true_2 by eauto. simpl. split; reflexivity.
      * rewrite ?bool_decide_eq_false_2 by (intros [? ?]; discriminate).
        simpl. split; lia.
    + rewrite bool_decide_eq_false_2 by congruence. simpl. split; lia.
Qed.

Lemma run_purchases ops : forall l u,
  from_option User.successfulPurchases 0 (users (run l ops) !! u) =
    from_option User.successfulPurchases 0 (users l !! u) + purchases_for u l ops /\
  from_option User.totalSpent 0 (users (run l ops) !! u) =
    from_option User.totalSpent 0 (users l !! u) + spent_for u l ops.
Proof.
  induction ops as [|op ops IH]; intros l u; simpl; [split; lia|].
  fold (run (step l op) ops).
  destruct (IH (step l op) u) as [-> ->].
  destruct (step_purchases l op u) as [-> ->]. split; lia.
Qed.

Lemma purchases_for_app u ops1 : forall l ops2,
  purchases_for u l (ops1 ++ ops2) =
  purchases_for u l ops1 + purchases_for u (run l ops1) ops2.
Proof.
  induction ops1 as [|op ops1 IH]; intros l ops2; simpl; [lia|].
  fold (run (step l op) ops1). rewrite IH. lia.
Qed.

Lemma spent_for_app u ops1 : forall l ops2,
  spent_for u l (ops1 ++ ops2) =
  spent_for u l ops1 + spent_for u (run l ops1) ops2.
Proof.
  induction ops1 as [|op ops1 IH]; intros l ops2; simpl; [lia|].
  fold (run (step l op) ops1). rewrite IH. lia.
Qed.

Lemma credits_nonneg_app u ops1 : forall l ops2,
  credits_nonneg u l (ops1 ++ ops2) ->
  credits_nonneg u l ops1 /\ credits_nonneg u (run l ops1) ops2.
Proof.
  induction ops1 as [|op ops1 IH]; intros l ops2; simpl; [auto|].
  intros [H1 H2]. fold (run (step l op) ops1).
  destruct (IH _ _ H2). auto.
Qed.

Lemma purchases_for_nonneg u ops : forall l, 0 <= purchases_for u l ops.
Proof.
  induction ops as [|op ops IH]; intros l; simpl; [lia|].
  specialize (IH (step l op)). destruct (credited u op l); lia.
Qed.

Lemma spent_for_nonneg u ops : forall l,
  credits_nonneg u l ops -> 0 <= spent_for u l ops.
Proof.
  induction ops as [|op ops IH]; intros l; simpl; [lia|].
  intros [H1 H2]. specialize (IH (step l op) H2).
  destruct (credited u op l); lia.
Qed.

(** X12.  Take a sequence of requests from the empty ledger in which the
    amounts credited to a user are non-negative and their number and their
    sum stay within MAX_SAFE_INTEGER.  Then at every point of the
    sequence the user's successfulPurchases is the number of
    confirm-payment calls so far that answered success for that user id
    while the record existed, totalSpent is the sum of the amounts the
    gateway reported in those calls, and both lie between 0 and
    MAX_SAFE_INTEGER, so that no addition of the handler has rounded. *)
Theorem run_counts_purchases ops u :
  credits_nonneg u empty_ledger ops ->
  purchases_for u empty_ledger ops <= MAX_SAFE_INTEGER ->
  spent_for u empty_ledger ops <= MAX_SAFE_INTEGER ->
  forall ops1 ops2, ops = (ops1 ++ ops2)%list ->
    match users (run empty_ledger ops1) !! u with
    | Some usr =>
        User.successfulPurchases usr = purchases_for u empty_ledger ops1 /\
        User.totalSpent usr = spent_for u empty_ledger ops1 /\
        0 <= User.successfulPurchases usr <= MAX_SAFE_INTEGER /\
        0 <= User.totalSpent usr <= MAX_SAFE_INTEGER
    | None =>
        purchases_for u empty_ledger ops1 = 0 /\
        spent_for u empty_ledger ops1 = 0
    end.
Proof.
  intros Hnn Hcount Hsum ops1 ops2 ->.
  rewrite purchases_for_app in Hcount. rewrite spent_for_app in Hsum.
  apply credits_nonneg_app in Hnn as [Hnn1 Hnn2].
  pose proof (purchases_for_nonneg u ops1 empty_ledger) as Hp1.
  pose proof (purchases_for_nonneg u ops2 (run empty_ledger ops1)) as Hp2.
  pose proof (spent_for_nonneg u ops1 empty_ledger Hnn1) as Hs1.
  pose proof (spent_for_nonneg u ops2 (run empty_ledger ops1) Hnn2) as Hs2.
  destruct (run_purchases ops1 empty_ledger u) as [Hp Hs].
  simpl in Hp, Hs. rewrite lookup_empty in Hp, Hs. simpl in Hp, Hs.
  destruct (users (run empty_ledger ops1) !! u); simpl in *;
    repeat split; lia.
Qed.

Lemma run_counts_purchases_witness :
  (User.successfulPurchases <$> users (run empty_ledger buy_confirm_twice) !! "u1")
    = Some 2 /\
  (User.totalSpent <$> users (run empty_ledger buy_confirm_twice) !! "u1")
    = Some 1998.
Proof.
  assert (Hnn : credits_nonneg "u1" empty_ledger buy_confirm_twice).
  { vm_compute. repeat split; discriminate. }
  assert (Hc : purchases_for "u1" empty_ledger buy_confirm_twice <= MAX_SAFE_INTEGER).
  { vm_compute. discriminate. }
  assert (Hs : spent_for "u1" empty_ledger buy_confirm_twice <= MAX_SAFE_INTEGER).
  { vm_compute. discriminate. }
  pose proof (run_counts_purchases buy_confirm_twice "u1" Hnn Hc Hs
                buy_confirm_twice [] (eq_sym (app_nil_r _))) as H.
  destruct (users (run empty_ledger buy_confirm_twice) !! "u1") as [usr|].
  - destruct H as (H1 & H2 & _). simpl. rewrite H1, H2.
    split; vm_compute; reflexivity.
  - destruct H as [H _]. vm_compute in H. discriminate H.
Defined.

(** ** From creation to the user query *)

(** X13.  After a create-payment call whose userEmail, userName and userId
    are strings and that answers success, the transaction stored under
    the paymentIntentId of the answer is the pending one of this call,
    with the amount and the currency of the answer; and the user query
    for that userId finds a record and lists that transaction.  (The user
    query reads the id from the URL, a string: a userId sent as a number
    is stored under the number and never found.) *)
Theorem create_then_get_user g now req l secret pid amt cur u n e d re ts :
  body (fst (create_payment g now req l)) =
    CreatePaymentOk secret pid amt cur u n e d re ts ->
  let l' := snd (create_payment g now req l) in
  JsMap.get pid (transactions l') = Some (created_transaction now req e n u pid) /\
  amt = Tx.amount (created_transaction now req e n u pid) /\
  cur = Tx.currency (created_transaction now req e n u pid) /\
  exists usr txs s,
    get_user u l' = json (UserOk usr txs s) /\
    In (created_transaction now req e n u pid) txs /\
    (1 <= us_totalTransactions s)%nat.
Proof.
  intros Hbody l'. subst l'.
  destruct (create_shape g now req l)
    as [[Hcode _]|(e' & n' & u' & intent & _ & _ & _ & _ & _ & Heq)].
  - exfalso.
    destruct (create_cases g now req l)
      as [(? & ? & ? & ? & _ & _ & _ & _ & Hfst & _)|(_ & (err & ty & Herr) & _)].
    + rewrite Hfst in Hcode. discriminate.
    + rewrite Herr in Hbody. discriminate.
  - rewrite Heq in Hbody |- *. simpl in Hbody |- *.
    injection Hbody as _ <- <- <- <- <- <- _ _ _.
    split; [apply get_set_eq|]. split; [reflexivity|]. split; [reflexivity|].
    unfold get_user. simpl. rewrite lookup_upsert.
    destruct (decide (u' = u')) as [_|]; [|congruence].
    do 3 eexists. split; [reflexivity|].
    assert (Hin : In (created_transaction now req e' n' u' (Stripe.Intent.id intent))
                    (array_sort newest_first
                       (List.filter (fun x => String.eqb (Tx.userId x) u')
                          (JsMap.values
                             (JsMap.set (Stripe.Intent.id intent)
                                (created_transaction now req e' n' u'
                                   (Stripe.Intent.id intent))
                                (transactions l)))))).
    { apply (Permutation_in _ (Permutation_sym (array_sort_perm _ _))).
      apply filter_In. split.
      - apply (get_Some_In _ (Stripe.Intent.id intent)). apply get_set_eq.
      - simpl. apply String.eqb_refl. }
    split; [exact Hin|].
    destruct (array_sort _ _); [destruct Hin | simpl; lia].
Qed.

Lemma create_then_get_user_witness :
  exists usr txs s,
    get_user "u1" ledger_created = json (UserOk usr txs s) /\
    In (created_transaction (create_at 1000) sample_create "a@b.com" "A" "u1" "pi_1")
      txs /\
    (1 <= us_totalTransactions s)%nat.
Proof.
  exact (proj2 (proj2 (proj2
    (create_then_get_user
       (gateway (sample_intent "pi_1" "requires_payment_method" 999))
       (create_at 1000) sample_create empty_ledger
       "pi_1_secret" "pi_1" 999 "usd" "u1" "A" "a@b.com"
       "Kid Tok Premium - Unlimited Video Access for A" "a@b.com" 1000
       eq_refl)))).
Defined.

(** ** What the gateway is asked *)

Lemma or_else_nonempty v d : d <> "" -> or_else v d <> "".
Proof.
  unfold or_else. intros Hd.
  destruct (truthy v) as [s|] eqn:E; [|exact Hd].
  apply truthy_Some in E. tauto.
Qed.

(** X14.  create-payment asks the gateway for nothing but the one price:
    its outcome is the same for two gateways that agree on every request
    for 999 usd whose receipt goes to the user's email, an email that
    emailRegex accepts, with a non-empty user id, user name, app version
    and device information. *)
Theorem create_asks_fixed_price g g' now req l :
  (forall p,
     Stripe.Params.amount p = 999 ->
     Stripe.Params.currency p = "usd" ->
     Stripe.Params.receipt_email p = Stripe.Params.user_email p ->
     emailRegex_test (Stripe.Params.user_email p) = true ->
     Stripe.Params.user_id p <> "" ->
     Stripe.Params.user_name p <> "" ->
     Stripe.Params.app_version p <> "" ->
     Stripe.Params.device_info p <> "" ->
     g p = g' p) ->
  create_payment g now req l = create_payment g' now req l.
Proof.
  intros Hg. unfold create_payment.
  destruct (truthy (CreateBody.userEmail req)) as [e|] eqn:He; [|reflexivity].
  destruct (truthy (CreateBody.userName req)) as [n|] eqn:Hn; [|reflexivity].
  destruct (truthy (CreateBody.userId req)) as [u|] eqn:Hu; [|reflexivity].
  destruct (emailRegex_test e) eqn:Hre; simpl; [|reflexivity].
  fold (create_params now req e n u).
  rewrite (Hg (create_params now req e n u)); try reflexivity; simpl.
  - exact Hre.
  - apply truthy_Some in Hu. tauto.
  - apply truthy_Some in Hn. tauto.
  - now apply or_else_nonempty.
  - now apply or_else_nonempty.
Qed.

Lemma create_asks_fixed_price_witness :
  create_payment
    (fun p => if Stripe.Params.amount p =? 999
              then inr (sample_intent "pi_1" "requires_payment_method" 999)
              else inl {| Stripe.Error.message := "Amount must be 999";
                          Stripe.Error.type := None |})
    (create_at 1000) sample_create empty_ledger =
  create_payment (gateway (sample_intent "pi_1" "requires_payment_method" 999))
    (create_at 1000) sample_create empty_ledger.
Proof.
  apply create_asks_fixed_price.
  intros p Ha _ _ _ _ _ _ _. rewrite Ha. reflexivity.
Defined.

(** ** Accepted email addresses *)

Lemma not_space_at_no_at a :
  Forall (fun x => not_space_at x = true) a ->
  List.filter (is_char "@") a = [] /\ Forall (fun x => is_space x = false) a.
Proof.
  induction 1 as [|c a Hc _ [IH1 IH2]]; [split; constructor|].
  unfold not_space_at in Hc. apply andb_true_iff in Hc as [Hs Ha].
  apply negb_true_iff in Hs, Ha. simpl. rewrite Ha.
  split; [exact IH1 | constructor; assumption].
Qed.

(** X15.  An email address that create-payment accepts has exactly one
    [@], no white space, a dot somewhere after the [@], and at least five
    characters. *)
Theorem accepted_email_facts s :
  emailRegex_test s = true ->
  length (List.filter (is_char "@") (list_ascii_of_string s)) = 1%nat /\
  Forall (fun x => is_space x = false) (list_ascii_of_string s) /\
  (exists a b, list_ascii_of_string s = (a ++ "@"%char :: b)%list /\
               In "."%char b) /\
  (5 <= length (list_ascii_of_string s))%nat.
Proof.
  intros H. apply emailRegex_test_shape in H
    as (a & b & c & -> & Ha & Hb & Hc & Fa & Fb & Fc).
  destruct (not_space_at_no_at a Fa) as [A1 A2].
  destruct (not_space_at_no_at b Fb) as [B1 B2].
  destruct (not_space_at_no_at c Fc) as [C1 C2].
  split; [|split; [|split]].
  - rewrite List.filter_app. simpl. rewrite List.filter_app. simpl.
    rewrite A1, B1, C1. reflexivity.
  - apply Forall_app. split; [exact A2|]. constructor; [reflexivity|].
    apply Forall_app. split; [exact B2|]. constructor; [reflexivity | exact C2].
  - exists a, (b ++ "."%char :: c)%list. split; [reflexivity|].
    apply in_or_app. right. now left.
  - rewrite length_app. simpl. rewrite length_app. simpl.
    destruct a; [congruence|]. destruct b; [congruence|]. destruct c; [congruence|].
    simpl. lia.
Qed.

Lemma accepted_email_facts_witness :
  length (List.filter (is_char "@") (list_ascii_of_string "a@b.com")) = 1%nat /\
  (5 <= length (list_ascii_of_string "a@b.com"))%nat.
Proof.
  destruct (accepted_email_facts "a@b.com" eq_refl) as (H1 & _ & _ & H5).
  split; assumption.
Defined.

(** ** The reports, side by side *)

(** X16.  In the admin report and in the user query, transactions created
    in the same millisecond come in the order in which the Map holds
    them. *)
Theorem reports_keep_insertion_order l t :
  match body (admin_transactions l) with
  | AdminOk txs _ =>
      List.filter (fun x => Tx.createdAt x =? t) txs =
      List.filter (fun x => Tx.createdAt x =? t) (JsMap.values (transactions l))
  | _ => False
  end /\
  forall u,
    match body (get_user u l) with
    | UserOk _ txs _ =>
        List.filter (fun x => Tx.createdAt x =? t) txs =
        List.filter (fun x => Tx.createdAt x =? t)
          (List.filter (owned_by u) (JsMap.values (transactions l)))
    | _ => users l !! u = None
    end.
Proof.
  split.
  - simpl. apply (array_sort_stable newest_first Tx.createdAt). reflexivity.
  - intros u. unfold get_user. destruct (users l !! u); [|reflexivity].
    simpl. apply (array_sort_stable newest_first Tx.createdAt). reflexivity.
Qed.

(** X17.  The revenue on the home page is the totalRevenue of the admin
    report, and both are the sum of amount over the stored transactions
    with status completed. *)
Theorem home_revenue_is_admin_revenue l :
  match body (admin_transactions l) with
  | AdminOk _ s =>
      home_totalRevenue l = totalRevenue s /\
      home_totalRevenue l = revenue (transactions l)
  | _ => False
  end.
Proof.
  simpl. unfold home_totalRevenue.
  rewrite (sum_perm _ _ _ (filter_perm is_completed _ _
             (array_sort_perm newest_first (JsMap.values (transactions l))))).
  split; [reflexivity | apply sum_completed_values].
Qed.

Lemma list_to_set_size_le (l : list string) (X : gset string) :
  (forall u, In u l -> u ∈ X) ->
  (size (list_to_set l : gset string) <= size X)%nat.
Proof.
  intros H. apply subseteq_size. intros u Hu.
  apply elem_of_list_to_set, list_elem_of_In in Hu. now apply H.
Qed.

(** X18.  After any sequence of requests from the empty ledger, the
    test-stripe answer counts the transactions of the admin report, and
    at least as many users as the admin report counts distinct user ids. *)
Theorem test_stripe_counts env now ops :
  match body (admin_transactions (run empty_ledger ops)) with
  | AdminOk _ s =>
      TestStripe.totalTransactions (test_stripe env now (run empty_ledger ops)) =
        totalTransactions s /\
      (uniqueUsers s <=
       TestStripe.totalUsers (test_stripe env now (run empty_ledger ops)))%nat
  | _ => False
  end.
Proof.
  pose proof (run_users_of_transactions ops) as Hint.
  set (l := run empty_ledger ops) in *. simpl.
  pose proof (array_sort_perm newest_first (JsMap.values (transactions l))) as Hperm.
  split.
  - rewrite (Permutation_length Hperm). unfold JsMap.size, JsMap.values.
    now rewrite length_map.
  - rewrite <- (size_dom (users l)).
    apply list_to_set_size_le. intros u Hu.
    apply in_map_iff in Hu as (x & <- & Hx).
    apply (Permutation_in _ Hperm) in Hx.
    rewrite Forall_forall in Hint. apply elem_of_dom, Hint, list_elem_of_In, Hx.
Qed.

(** ** File names of videos *)

Lemma append_String a (s t : string) : (String a s ++ t)%string = String a (s ++ t)%string.
Proof. reflexivity. Qed.

Lemma append_assoc (a b c : string) : ((a ++ b) ++ c)%string = (a ++ (b ++ c))%string.
Proof.
  induction a as [|x a IH]; [reflexivity|].
  rewrite !append_String. now rewrite IH.
Qed.

Lemma append_nil_r (a : string) : (a ++ "")%string = a.
Proof.
  induction a as [|x a IH]; [reflexivity|].
  rewrite append_String. now rewrite IH.
Qed.

Lemma split_on_nonempty c s : split_on c s <> [].
Proof.
  destruct s as [|a s]; simpl; [discriminate|].
  destruct (Ascii.eqb a c); [discriminate|].
  destruct (split_on c s); discriminate.
Qed.

(** No segment of a split contains the separator. *)
Lemma split_on_segments c s :
  Forall (fun seg => ~ In c (list_ascii_of_string seg)) (split_on c s).
Proof.
  induction s as [|a s IH]; simpl.
  - constructor; [simpl; tauto | constructor].
  - destruct (Ascii.eqb a c) eqn:E.
    + constructor; [simpl; tauto | exact IH].
    + apply Ascii.eqb_neq in E.
      destruct (split_on c s) as [|seg rest].
      * constructor; [simpl; intuition congruence | constructor].
      * inversion IH; subst. constructor; [|assumption].
        simpl. intuition congruence.
Qed.

(** [s.split(c).join(c)] is [s]. *)
Lemma split_on_join c s : String.concat (String c "") (split_on c s) = s.
Proof.
  induction s as [|a s IH]; [reflexivity|]. simpl.
  pose proof (split_on_nonempty c s) as Hne.
  destruct (Ascii.eqb a c) eqn:E.
  - apply Ascii.eqb_eq in E. subst a.
    destruct (split_on c s) as [|seg rest]; [congruence|].
    change (String c (String.concat (String c "") (seg :: rest)) = String c s).
    now rewrite IH.
  - destruct (split_on c s) as [|seg rest]; [congruence|].
    destruct rest as [|y rest].
    + change (String a (String.concat (String c "") [seg]) = String a s).
      now rewrite IH.
    + change (String a (String.concat (String c "") (seg :: y :: rest)) = String a s).
      now rewrite IH.
Qed.

(** A joined array is the last element after a prefix that is empty or
    ends with the separator. *)
Lemma concat_last sep (a : list string) :
  a <> [] ->
  exists prefix,
    String.concat sep a = (prefix ++ pop a)%string /\
    (prefix = "" \/ exists q, prefix = (q ++ sep)%string).
Proof.
  unfold pop. induction a as [|x a IH]; [congruence|]. intros _.
  destruct a as [|y a].
  - exists "". split; [reflexivity | now left].
  - destruct IH as (prefix & Heq & Hp); [discriminate|].
    exists (x ++ sep ++ prefix)%string. split.
    + change (String.concat sep (x :: y :: a))
        with (x ++ sep ++ String.concat sep (y :: a))%string.
      rewrite Heq. change (List.last (x :: y :: a) "") with (List.last (y :: a) "").
      now rewrite !append_assoc.
    + right. destruct Hp as [->|(q & ->)].
      * exists x. now rewrite append_nil_r.
      * exists (x ++ sep ++ q)%string. now rewrite !append_assoc.
Qed.

Lemma last_In (a : list string) d : a <> [] -> In (List.last a d) a.
Proof.
  induction a as [|x a IH]; [congruence|]. intros _.
  destruct a as [|y a]; [now left|].
  right. apply IH. discriminate.
Qed.

(** X19.  The file name of a video is never empty.  It is the resource's
    filename when that is there; otherwise it is what follows the last
    slash of the public id (the whole public id when it has no slash), and
    "Video" when nothing follows it. *)
Theorem video_filename_last_segment filename public_id :
  video_filename filename public_id <> "" /\
  (forall f, truthy filename = Some f -> video_filename filename public_id = f) /\
  (truthy filename = None ->
   exists prefix name,
     public_id = (prefix ++ name)%string /\
     ~ In "/"%char (list_ascii_of_string name) /\
     (prefix = "" \/ exists q, prefix = (q ++ "/")%string) /\
     video_filename filename public_id =
       if String.eqb name "" then "Video" else name).
Proof.
  split; [|split].
  - unfold video_filename. apply or_else_nonempty, or_else_nonempty. discriminate.
  - intros f Hf. unfold video_filename, or_else. now rewrite Hf.
  - intros Hf.
    pose proof (split_on_nonempty "/" public_id) as Hne.
    destruct (concat_last "/" (split_on "/" public_id) Hne) as (prefix & Heq & Hp).
    rewrite split_on_join in Heq.
    exists prefix, (pop (split_on "/" public_id)).
    split; [exact Heq|]. split; [|split; [exact Hp|]].
    + pose proof (split_on_segments "/" public_id) as Hseg.
      rewrite Forall_forall in Hseg. apply Hseg, list_elem_of_In.
      now apply last_In.
    + unfold video_filename, or_else at 1. rewrite Hf.
      unfold or_else, truthy.
      now destruct (String.eqb (pop (split_on "/" public_id)) "").
Qed.

Lemma video_filename_last_segment_witness :
  video_filename None "kids/cartoons/clip01" = "clip01" /\
  video_filename (Some "") "kids/" = "Video" /\
  video_filename (Some "clip.mp4") "kids/cartoons/clip01" = "clip.mp4".
Proof.
  destruct (video_filename_last_segment (Some "clip.mp4") "kids/cartoons/clip01")
    as (_ & Hf & _).
  split; [reflexivity|]. split; [reflexivity|]. apply Hf. reflexivity.
Defined.

(** ** Sanity checks on the further definitions *)

Example split_on_examples :
  split_on "/" "" = [""] /\
  split_on "/" "a/b" = ["a"; "b"] /\
  split_on "/" "/" = [""; ""] /\
  split_on "/" "a//b/" = ["a"; ""; "b"; ""] /\
  split_on "/" "abc" = ["abc"].
Proof. repeat split. Qed.

Example purchases_of_sample :
  purchases_for "u1" empty_ledger
    [CreatePayment (gateway (sample_intent "pi_1" "requires_payment_method" 999))
       (create_at 1000) sample_create;
     ConfirmPayment (gateway (sample_intent "pi_1" "succeeded" 999))
       (confirm_at 2000) (sample_confirm "pi_1" "u1");
     ConfirmPayment (gateway (sample_intent "pi_1" "succeeded" 999))
       (confirm_at 3000) (sample_confirm "pi_1" "u1")] = 2 /\
  spent_for "u1" empty_ledger
    [CreatePayment (gateway (sample_intent "pi_1" "requires_payment_method" 999))
       (create_at 1000) sample_create;
     ConfirmPayment (gateway (sample_intent "pi_1" "succeeded" 999))
       (confirm_at 2000) (sample_confirm "pi_1" "u1");
     ConfirmPayment (gateway (sample_intent "pi_1" "succeeded" 999))
       (confirm_at 3000) (sample_confirm "pi_1" "u1")] = 1998.
Proof. split; vm_compute; reflexivity. Qed.

Example test_stripe_sample :
  TestStripe.totalTransactions
    (test_stripe {| STRIPE_SECRET_KEY := Some "sk_test"; PORT := None |} 5000
       ledger_mixed) = 2%nat /\
  TestStripe.totalUsers
    (test_stripe {| STRIPE_SECRET_KEY := Some "sk_test"; PORT := None |} 5000
       ledger_mixed) = 2%nat /\
  TestStripe.port
    (test_stripe {| STRIPE_SECRET_KEY := Some "sk_test"; PORT := None |} 5000
       ledger_mixed) = inr 3001.
Proof. repeat split; vm_compute; reflexivity. Qed.
